(** * Soul Builder: session state machine and SOUL.md rendering

    A shallow embedding of [soul-builder.ts], [types.ts] and the tool-call
    handler of [server.ts]: the session store and its sweep, the question
    flow ([startSoulBuilder], [answerQuestion]), the renderer
    ([generateSoul], [exportSoul], [generateSoulMd]) and the reply text of
    the handler, followed by the properties of the specification that
    concern them and by further properties read off the code. *)

From Stdlib Require Import ZArith NArith String Ascii.
From stdpp Require Import gmap list pretty.

Local Open Scope Z_scope.

(** ** JavaScript strings

    A JavaScript string is a sequence of UTF-16 code units. *)

Abbreviation jsstring := (list N).

Module Utf16.

(** Code points of a UTF-8 byte sequence; [acc] holds the bits read so far
    of a multi-byte sequence and [k] the continuation bytes still due. *)
Fixpoint decode (bs : list N) (acc : N) (k : nat) : list N :=
  match bs with
  | [] => []
  | b :: r =>
      match k with
      | O =>
          if (b <? 128)%N then b :: decode r 0%N 0%nat
          else if (b <? 224)%N then decode r (N.land b 31) 1%nat
          else if (b <? 240)%N then decode r (N.land b 15) 2%nat
          else decode r (N.land b 7) 3%nat
      | S O => (acc * 64 + N.land b 63)%N :: decode r 0%N 0%nat
      | S k' => decode r (acc * 64 + N.land b 63)%N k'
      end
  end.

(** Code units of one code point: itself in the basic plane, a surrogate
    pair above it. *)
Definition units (cp : N) : list N :=
  if (cp <? 65536)%N then [cp]
  else [(55296 + N.shiftr (cp - 65536) 10)%N;
        (56320 + N.land (cp - 65536) 1023)%N].

Fixpoint bytes (s : string) : list N :=
  match s with
  | EmptyString => []
  | String a r => N_of_ascii a :: bytes r
  end.

End Utf16.

(** The JavaScript value of a source literal written in UTF-8. *)
Definition lit (s : string) : jsstring :=
  concat (map Utf16.units (Utf16.decode (Utf16.bytes s) 0%N 0%nat)).

Arguments lit s%_string : simpl never.

(** The double quote and the line feed, which the literals below splice in. *)
Definition dq : jsstring := [34%N].
Definition nl : jsstring := [10%N].

(** [WhiteSpace] and [LineTerminator] of ECMAScript: what
    [String.prototype.trim] strips from both ends. *)
Definition isWhiteSpace (c : N) : bool :=
  ((9 <=? c) && (c <=? 13) || (c =? 32) || (c =? 160) || (c =? 5760)
   || (8192 <=? c) && (c <=? 8202) || (c =? 8232) || (c =? 8233)
   || (c =? 8239) || (c =? 8287) || (c =? 12288) || (c =? 65279))%N.

Fixpoint trimStart (s : jsstring) : jsstring :=
  match s with
  | c :: r => if isWhiteSpace c then trimStart r else s
  | [] => []
  end.

Definition trimEnd (s : jsstring) : jsstring :=
  reverse (trimStart (reverse s)).

Definition trim (s : jsstring) : jsstring := trimEnd (trimStart s).

(** Number-to-string conversion of a template literal, on integers. *)
Definition ofNumber (z : Z) : jsstring := lit (pretty z).

(** A template literal prints a missing property as [undefined]. *)
Definition tpl (v : option jsstring) : jsstring :=
  match v with
  | Some s => s
  | None => lit "undefined"
  end.

(** Truthiness of an optional string property: [undefined] and the empty
    string are falsy. *)
Definition truthy (v : option jsstring) : bool :=
  match v with
  | Some (_ :: _) => true
  | _ => false
  end.

(** [String.prototype.toLowerCase] on the Basic Latin block and the Kelvin
    sign, the one instance of the runtime's lower-casing used to evaluate the
    development on concrete inputs. *)
Definition toLowerCase_latin (s : jsstring) : jsstring :=
  map (fun c => if (65 <=? c)%N && (c <=? 90)%N then (c + 32)%N
                else if (c =? 8490)%N then 107%N else c) s.

(** ** types.ts *)

Inductive Field :=
  | Fname | Fpersonality | FcoreValues | Ftone | Fbackstory | Fsignature.

(** [Partial<SoulAnswers>]: every property may be absent. *)
Record SoulAnswers := {
  name : option jsstring;
  personality : option jsstring;
  coreValues : option jsstring;
  tone : option jsstring;
  backstory : option jsstring;
  signature : option jsstring;
}.

Record SoulState := {
  step : Z;
  answers : SoulAnswers;
  createdAt : Z;
}.

Record SoulQuestion := {
  q_step : Z;
  field : Field;
  question : jsstring;
  optional : bool;
}.

Definition SOUL_QUESTIONS : list SoulQuestion := [
  {| q_step := 1; field := Fname;
     question := lit "Wie soll dein Agent heißen?";
     optional := false |};
  {| q_step := 2; field := Fpersonality;
     question := lit "Beschreibe die Persönlichkeit in 3 Adjektiven (z.B. warm, direkt, neugierig)";
     optional := false |};
  {| q_step := 3; field := FcoreValues;
     question := lit "Was sind 2-3 Kernwerte deines Agenten?";
     optional := false |};
  {| q_step := 4; field := Ftone;
     question := lit "Kommunikationsstil: formell / locker-professionell / casual / technisch-präzise";
     optional := false |};
  {| q_step := 5; field := Fbackstory;
     question := lit "Gib deinem Agenten eine Herkunft — 1-2 Sätze.";
     optional := false |};
  {| q_step := 6; field := Fsignature;
     question := lit "Ein typischer Erkennungs-Satz deines Agenten? (oder " ++ dq
                 ++ lit "skip" ++ dq ++ lit " zum Überspringen)";
     optional := true |}
].

Definition TOTAL_STEPS : Z := Z.of_nat (length SOUL_QUESTIONS).

Record ToolResult := {
  success : bool;
  message : jsstring;
  nextQuestion : option jsstring;
  currentStep : option Z;
  totalSteps : option Z;
  isComplete : option bool;
  soulMd : option jsstring;
}.

(** Array indexing [SOUL_QUESTIONS[i]]: [undefined] outside the array. *)
Definition questionAt (i : Z) : option SoulQuestion :=
  if i <? 0 then None else SOUL_QUESTIONS !! Z.to_nat i.

(** Property read [answers[f]] and write [answers[f] = v]. *)
Definition getAnswer (f : Field) (a : SoulAnswers) : option jsstring :=
  match f with
  | Fname => name a
  | Fpersonality => personality a
  | FcoreValues => coreValues a
  | Ftone => tone a
  | Fbackstory => backstory a
  | Fsignature => signature a
  end.

Definition setAnswer (f : Field) (v : jsstring) (a : SoulAnswers) : SoulAnswers :=
  match f with
  | Fname =>
      {| name := Some v; personality := personality a; coreValues := coreValues a;
         tone := tone a; backstory := backstory a; signature := signature a |}
  | Fpersonality =>
      {| name := name a; personality := Some v; coreValues := coreValues a;
         tone := tone a; backstory := backstory a; signature := signature a |}
  | FcoreValues =>
      {| name := name a; personality := personality a; coreValues := Some v;
         tone := tone a; backstory := backstory a; signature := signature a |}
  | Ftone =>
      {| name := name a; personality := personality a; coreValues := coreValues a;
         tone := Some v; backstory := backstory a; signature := signature a |}
  | Fbackstory =>
      {| name := name a; personality := personality a; coreValues := coreValues a;
         tone := tone a; backstory := Some v; signature := signature a |}
  | Fsignature =>
      {| name := name a; personality := personality a; coreValues := coreValues a;
         tone := tone a; backstory := backstory a; signature := Some v |}
  end.

(** The object literal [{}]. *)
Definition noAnswers : SoulAnswers :=
  {| name := None; personality := None; coreValues := None;
     tone := None; backstory := None; signature := None |}.

(** ** soul-builder.ts *)

(** A call either returns its result or throws (a [TypeError] on reading a
    property of [undefined]). *)
Inductive completion :=
  | Return (r : ToolResult)
  | Throw.

Definition SESSION_EXPIRY_MS : Z := 60 * 60 * 1000.

(** The expiry test of the cleanup timer at time [now]. *)
Definition expired (now : Z) (state : SoulState) : Prop :=
  now - createdAt state > SESSION_EXPIRY_MS.

#[global] Instance expired_dec now state : Decision (expired now state).
Proof. unfold expired. apply _. Defined.

(** The body of the cleanup timer, run at time [now]: every expired entry
    is deleted. *)
Definition sweep (now : Z) (sessions : gmap jsstring SoulState)
  : gmap jsstring SoulState :=
  filter (fun kv => ~ expired now kv.2) sessions.

(** The session object of a new entry; [new Date()] reads the clock, the
    time of the call being [now]. *)
Definition created (now : Z) : SoulState :=
  {| step := 1; answers := noAnswers; createdAt := now |}.

Definition startSoulBuilder (now : Z) (sessions : gmap jsstring SoulState)
    (sessionId : jsstring) : completion * gmap jsstring SoulState :=
  match sessions !! sessionId with
  | Some existing =>
      let currentQuestion := questionAt (step existing - 1) in
      (Return
       {| success := true;
          message := lit "Session bereits aktiv. Wir sind bei Frage "
                     ++ ofNumber (step existing) ++ lit "/"
                     ++ ofNumber TOTAL_STEPS ++ lit ".";
          nextQuestion := question <$> currentQuestion;
          currentStep := Some (step existing);
          totalSteps := Some TOTAL_STEPS;
          isComplete := Some (bool_decide (step existing > TOTAL_STEPS));
          soulMd := None |},
       sessions)
  | None =>
      let sessions' := <[sessionId := created now]> sessions in
      match questionAt 0 with
      | None => (Throw, sessions')
      | Some firstQuestion =>
          (Return
           {| success := true;
              message := lit "Willkommen beim Soul Builder! 🎭" ++ nl ++ nl
                ++ lit "Ich helfe dir, die Identität deines KI-Agenten zu definieren. In "
                ++ ofNumber TOTAL_STEPS
                ++ lit " kurzen Fragen erstellen wir gemeinsam ein SOUL.md — das Herzstück deines Agenten."
                ++ nl ++ nl
                ++ lit "Die Kernthese von ag3nt.id: " ++ dq
                ++ lit "Ein Agent ohne Soul ist nur ein Werkzeug." ++ dq
                ++ nl ++ nl
                ++ lit "Lass uns starten!";
              nextQuestion := Some (question firstQuestion);
              currentStep := Some 1;
              totalSteps := Some TOTAL_STEPS;
              isComplete := Some false;
              soulMd := None |},
           sessions')
      end
  end.

Definition noSession : ToolResult :=
  {| success := false;
     message := lit "Keine aktive Session gefunden. Bitte starte mit start_soul_builder.";
     nextQuestion := None; currentStep := None; totalSteps := None;
     isComplete := None; soulMd := None |}.

(** The session object after [state.answers[currentQuestion.field] = v] and
    [state.step++]. *)
Definition answered (state : SoulState) (currentQuestion : SoulQuestion)
    (v : jsstring) : SoulState :=
  {| step := step state + 1;
     answers := setAnswer (field currentQuestion) v (answers state);
     createdAt := createdAt state |}.

(** The tail of [answerQuestion] once the answer [v] is accepted: the two
    updates of the stored object, and the report. *)
Definition storeAndAdvance (sessions : gmap jsstring SoulState)
    (sessionId : jsstring) (state : SoulState) (currentQuestion : SoulQuestion)
    (v : jsstring) : completion * gmap jsstring SoulState :=
  let state' := answered state currentQuestion v in
  let sessions' := <[sessionId := state']> sessions in
  if bool_decide (step state' > TOTAL_STEPS) then
    (Return
       {| success := true;
          message := lit "Perfekt! Alle " ++ ofNumber TOTAL_STEPS
            ++ lit " Fragen beantwortet. Dein Agent " ++ dq
            ++ tpl (name (answers state')) ++ dq
            ++ lit " ist bereit!" ++ nl ++ nl
            ++ lit "Nutze jetzt generate_soul um dein SOUL.md zu erstellen.";
          nextQuestion := None;
          currentStep := Some (step state');
          totalSteps := Some TOTAL_STEPS;
          isComplete := Some true;
          soulMd := None |},
     sessions')
  else
    match questionAt (step state' - 1) with
    | None => (Throw, sessions')
    | Some nextQ =>
        (Return
           {| success := true;
              message := lit "Antwort gespeichert! Weiter zu Frage "
                ++ ofNumber (step state') ++ lit "/"
                ++ ofNumber TOTAL_STEPS ++ lit ":";
              nextQuestion := Some (question nextQ);
              currentStep := Some (step state');
              totalSteps := Some TOTAL_STEPS;
              isComplete := Some false;
              soulMd := None |},
         sessions')
    end.

Section Runtime.

(** [String.prototype.toLowerCase] is the runtime's Unicode lower-casing;
    the flow is parametric in it. *)
Variable toLowerCase : jsstring -> jsstring.

Definition answerQuestion (sessions : gmap jsstring SoulState)
    (sessionId answer : jsstring) : completion * gmap jsstring SoulState :=
  match sessions !! sessionId with
  | None => (Return noSession, sessions)
  | Some state =>
      if bool_decide (step state > TOTAL_STEPS) then
        (Return
           {| success := true;
              message := lit "Alle Fragen beantwortet! Nutze generate_soul um dein SOUL.md zu erstellen.";
              nextQuestion := None;
              currentStep := Some (step state);
              totalSteps := Some TOTAL_STEPS;
              isComplete := Some true;
              soulMd := None |},
         sessions)
      else
        match questionAt (step state - 1) with
        | None => (Throw, sessions)
        | Some currentQuestion =>
            let trimmedAnswer := trim answer in
            if optional currentQuestion
               && bool_decide (toLowerCase trimmedAnswer = lit "skip")
            then storeAndAdvance sessions sessionId state currentQuestion []
            else if bool_decide (trimmedAnswer = [])
                    && negb (optional currentQuestion)
            then
              (Return
                 {| success := false;
                    message := lit "Diese Frage ist erforderlich. Bitte beantworte: "
                               ++ question currentQuestion;
                    nextQuestion := None;
                    currentStep := Some (step state);
                    totalSteps := Some TOTAL_STEPS;
                    isComplete := None;
                    soulMd := None |},
               sessions)
            else storeAndAdvance sessions sessionId state currentQuestion
                   trimmedAnswer
        end
  end.

End Runtime.

(** The two alternatives of [signatureSection] in [generateSoulMd]. *)
Definition signatureSection (answers : SoulAnswers) : jsstring :=
  if truthy (signature answers)
  then lit "## Signature" ++ nl ++ tpl (signature answers)
  else lit "## Signature" ++ nl ++ lit "*Keine Signatur definiert*".

Definition generateSoulMd (answers : SoulAnswers) : jsstring :=
  lit "# SOUL.md — " ++ tpl (name answers) ++ nl
  ++ nl
  ++ lit "## Identity" ++ nl
  ++ lit "**Name:** " ++ tpl (name answers) ++ nl
  ++ lit "**Personality:** " ++ tpl (personality answers) ++ nl
  ++ lit "**Core Values:** " ++ tpl (coreValues answers) ++ nl
  ++ nl
  ++ lit "## Communication Style" ++ nl
  ++ lit "**Tone:** " ++ tpl (tone answers) ++ nl
  ++ nl
  ++ lit "## Backstory" ++ nl
  ++ tpl (backstory answers) ++ nl
  ++ nl
  ++ signatureSection answers ++ nl
  ++ nl
  ++ lit "---" ++ nl
  ++ lit "*Generated by Soul Builder — ag3nt.id*" ++ nl
  ++ lit "*Give your agent an identity.*" ++ nl.

(** [generateSoul] and [exportSoul] only read the store. *)
Definition generateSoul (sessions : gmap jsstring SoulState)
    (sessionId : jsstring) : ToolResult :=
  match sessions !! sessionId with
  | None => noSession
  | Some state =>
      if bool_decide (step state <= TOTAL_STEPS) then
        let remaining := TOTAL_STEPS - step state + 1 in
        {| success := false;
           message := lit "Noch " ++ ofNumber remaining
             ++ lit " Frage(n) offen. Bitte beantworte alle Fragen zuerst.";
           nextQuestion := None;
           currentStep := Some (step state);
           totalSteps := Some TOTAL_STEPS;
           isComplete := None;
           soulMd := None |}
      else
        let answers := answers state in
        let soulMd := generateSoulMd answers in
        {| success := true;
           message := lit "SOUL.md für " ++ dq ++ tpl (name answers) ++ dq
             ++ lit " erfolgreich generiert!";
           nextQuestion := None; currentStep := None; totalSteps := None;
           isComplete := Some true;
           soulMd := Some soulMd |}
  end.

Definition exportSoul (sessions : gmap jsstring SoulState)
    (sessionId : jsstring) : ToolResult :=
  match sessions !! sessionId with
  | None => noSession
  | Some state =>
      if bool_decide (step state <= TOTAL_STEPS) then
        {| success := false;
           message := lit "Soul noch nicht vollständig. Bitte beantworte alle Fragen und nutze generate_soul.";
           nextQuestion := None; currentStep := None; totalSteps := None;
           isComplete := None; soulMd := None |}
      else
        let answers := answers state in
        let soulMd := generateSoulMd answers in
        {| success := true;
           message := lit "Hier ist dein SOUL.md zum Kopieren:";
           nextQuestion := None; currentStep := None; totalSteps := None;
           isComplete := None;
           soulMd := Some soulMd |}
  end.

Definition getSessionState (sessions : gmap jsstring SoulState)
    (sessionId : jsstring) : option SoulState :=
  sessions !! sessionId.

Definition getActiveSessionCount (sessions : gmap jsstring SoulState) : nat :=
  size sessions.

(** ** Call sequences

    The store is module state, changed only by the four tools and by the
    cleanup timer. A [call] is one of these, with the clock reading it
    makes. *)
Inductive call :=
  | start_soul_builder (now : Z) (sessionId : jsstring)
  | answer_question (sessionId answer : jsstring)
  | generate_soul (sessionId : jsstring)
  | export_soul (sessionId : jsstring)
  | cleanup (now : Z).

Section Calls.

Variable toLowerCase : jsstring -> jsstring.

(** The store after one call. *)
Definition handle (sessions : gmap jsstring SoulState) (c : call)
  : gmap jsstring SoulState :=
  match c with
  | start_soul_builder now sessionId => (startSoulBuilder now sessions sessionId).2
  | answer_question sessionId answer =>
      (answerQuestion toLowerCase sessions sessionId answer).2
  | generate_soul _ => sessions
  | export_soul _ => sessions
  | cleanup now => sweep now sessions
  end.

(** The store after a sequence of calls on the empty store of a fresh
    process. *)
Definition run (calls : list call) : gmap jsstring SoulState :=
  foldl handle ∅ calls.

End Calls.

(** How one session's entry may differ across a call: it may appear with
    step 1, disappear, or keep or increment its step. *)
Definition stepsBy (before after : option SoulState) : Prop :=
  match before, after with
  | None, Some s' => step s' = 1
  | Some s, Some s' => step s' = step s \/ step s' = step s + 1
  | _, None => True
  end.

(** Every stored session is at a question or just past the last one. *)
Definition wellStepped (sessions : gmap jsstring SoulState) : Prop :=
  forall sessionId state,
    sessions !! sessionId = Some state -> 1 <= step state <= TOTAL_STEPS + 1.

(** [needle] occurs in [hay]. *)
Definition occursIn (needle hay : jsstring) : Prop :=
  exists p q, hay = p ++ needle ++ q.

(** A report names the count [n] when its message prints it. *)
Definition reportsCount (r : ToolResult) (n : Z) : Prop :=
  occursIn (ofNumber n) (message r).

(** What follows the signature section in the document. *)
Definition footer : jsstring :=
  nl ++ nl ++ lit "---" ++ nl
  ++ lit "*Generated by Soul Builder — ag3nt.id*" ++ nl
  ++ lit "*Give your agent an identity.*" ++ nl.

(** ** server.ts: the tool-call handler

    The handler receives the tool name and the arguments of the request; the
    casts [args?.session_id as string] and [args?.answer as string] take them
    for strings, and as strings they are modelled. *)

(** A template literal prints a missing number as [undefined]. *)
Definition tplNumber (v : option Z) : jsstring :=
  match v with
  | Some z => ofNumber z
  | None => lit "undefined"
  end.

(** The text assembled from a result: the message, then the question line
    when there is a next question, then the document when there is one. *)
Definition responseText (result : ToolResult) : jsstring :=
  let withQuestion :=
    if truthy (nextQuestion result)
    then message result ++ nl ++ nl ++ lit "**Frage "
         ++ tplNumber (currentStep result) ++ lit "/"
         ++ tplNumber (totalSteps result) ++ lit ":** "
         ++ tpl (nextQuestion result)
    else message result in
  if truthy (soulMd result)
  then withQuestion ++ nl ++ nl ++ lit "---" ++ nl ++ nl ++ tpl (soulMd result)
  else withQuestion.

(** [JSON.stringify] of a string (QuoteJSONString of ECMAScript): the two-
    character escapes, [\uXXXX] in lower-case hexadecimal for the other
    control characters and for lone surrogates, everything else as it is. *)
Definition hexDigit (n : N) : N :=
  if (n <? 10)%N then (48 + n)%N else (87 + n)%N.

Definition unicodeEscape (c : N) : jsstring :=
  [92%N; 117%N;
   hexDigit ((c / 4096) mod 16)%N; hexDigit ((c / 256) mod 16)%N;
   hexDigit ((c / 16) mod 16)%N; hexDigit (c mod 16)%N].

Definition isLeadingSurrogate (c : N) : bool :=
  ((55296 <=? c) && (c <=? 56319))%N.

Definition isTrailingSurrogate (c : N) : bool :=
  ((56320 <=? c) && (c <=? 57343))%N.

Definition quoteUnit (c : N) : jsstring :=
  if (c =? 8)%N then [92%N; 98%N]
  else if (c =? 9)%N then [92%N; 116%N]
  else if (c =? 10)%N then [92%N; 110%N]
  else if (c =? 12)%N then [92%N; 102%N]
  else if (c =? 13)%N then [92%N; 114%N]
  else if (c =? 34)%N then [92%N; 34%N]
  else if (c =? 92)%N then [92%N; 92%N]
  else if (c <? 32)%N || isLeadingSurrogate c || isTrailingSurrogate c
  then unicodeEscape c
  else [c].

Fixpoint quoteJSONBody (s : jsstring) : jsstring :=
  match s with
  | [] => []
  | c :: r =>
      match r with
      | d :: r' =>
          if isLeadingSurrogate c && isTrailingSurrogate d
          then c :: d :: quoteJSONBody r'
          else quoteUnit c ++ quoteJSONBody r
      | [] => quoteUnit c
      end
  end.

Definition quoteJSONString (s : jsstring) : jsstring :=
  dq ++ quoteJSONBody s ++ dq.

(** [JSON.stringify({ success: false, message })]. *)
Definition stringifyFailure (message : jsstring) : jsstring :=
  lit "{" ++ dq ++ lit "success" ++ dq ++ lit ":false," ++ dq ++ lit "message"
  ++ dq ++ lit ":" ++ quoteJSONString message ++ lit "}".

(** What the handler returns: the text of its one content item and
    [isError], which only the [catch] branch sets. *)
Record CallToolResult := {
  text : jsstring;
  isError : option bool;
}.

Section Server.

Variable toLowerCase : jsstring -> jsstring.

(** The [message] of the error a tool throws is the engine's. *)
Variable errorMessage : jsstring.

(** The end of the [try] block and the [catch] block, for a tool that
    returned or threw. *)
Definition reply (out : completion * gmap jsstring SoulState)
  : CallToolResult * gmap jsstring SoulState :=
  match out.1 with
  | Return result => ({| text := responseText result; isError := None |}, out.2)
  | Throw => ({| text := stringifyFailure errorMessage; isError := Some true |},
              out.2)
  end.

Definition callTool (now : Z) (sessions : gmap jsstring SoulState)
    (name session_id answer : jsstring)
  : CallToolResult * gmap jsstring SoulState :=
  if bool_decide (name = lit "start_soul_builder") then
    reply (startSoulBuilder now sessions session_id)
  else if bool_decide (name = lit "answer_question") then
    reply (answerQuestion toLowerCase sessions session_id answer)
  else if bool_decide (name = lit "generate_soul") then
    reply (Return (generateSoul sessions session_id), sessions)
  else if bool_decide (name = lit "export_soul") then
    reply (Return (exportSoul sessions session_id), sessions)
  else
    ({| text := stringifyFailure (lit "Unknown tool: " ++ name);
        isError := None |},
     sessions).

End Server.

(** ** Predicates on sessions and calls *)

(** The answers of a session are those of the questions before its step. *)
Definition answersInOrder (state : SoulState) : Prop :=
  forall i q,
    questionAt i = Some q ->
    (is_Some (getAnswer (field q) (answers state)) <-> i + 1 < step state).

(** Every stored answer is trimmed, and non-empty for a required question. *)
Definition answersStored (state : SoulState) : Prop :=
  forall i q v,
    questionAt i = Some q ->
    getAnswer (field q) (answers state) = Some v ->
    trim v = v /\ (optional q = false -> v <> []).

(** [r] is what one of the four tools returns on [sessions]. *)
Definition returnedBy (toLowerCase : jsstring -> jsstring) (now : Z)
    (sessions : gmap jsstring SoulState) (sessionId answer : jsstring)
    (r : ToolResult) : Prop :=
  (startSoulBuilder now sessions sessionId).1 = Return r
  \/ (answerQuestion toLowerCase sessions sessionId answer).1 = Return r
  \/ r = generateSoul sessions sessionId
  \/ r = exportSoul sessions sessionId.

#[global] Instance Field_eq_dec : EqDecision Field.
Proof. solve_decision. Defined.

Definition isCleanup (c : call) : bool :=
  match c with
  | cleanup _ => true
  | _ => false
  end.

Definition isStart (c : call) : bool :=
  match c with
  | start_soul_builder _ _ => true
  | _ => false
  end.

(** The session a tool call names. *)
Definition target (c : call) : option jsstring :=
  match c with
  | start_soul_builder _ sessionId => Some sessionId
  | answer_question sessionId _ => Some sessionId
  | generate_soul sessionId => Some sessionId
  | export_soul sessionId => Some sessionId
  | cleanup _ => None
  end.

(** ** Concrete stores *)

(** A store with one new session. *)
Definition store1 : gmap jsstring SoulState := {[ lit "s1" := created 1000 ]}.

(** The end-to-end scenario: a start and five answers, then a skip of the
    sixth question. *)
Definition progress : list call :=
  [ start_soul_builder 1000 (lit "s1");
    answer_question (lit "s1") (lit "Aria");
    answer_question (lit "s1") (lit "warm, direkt, neugierig");
    answer_question (lit "s1") (lit "Ehrlichkeit, Geduld");
    answer_question (lit "s1") (lit "casual");
    answer_question (lit "s1") (lit "Aus dem Norden.") ].

Definition scenario : list call :=
  progress ++ [ answer_question (lit "s1") (lit " Skip ") ].

(** The store before the last answer of the scenario. *)
Definition store6 : gmap jsstring SoulState :=
  run toLowerCase_latin progress.

(** The session of [store6]. *)
Definition state6 : SoulState :=
  {| step := 6;
     answers := {| name := Some (lit "Aria");
                   personality := Some (lit "warm, direkt, neugierig");
                   coreValues := Some (lit "Ehrlichkeit, Geduld");
                   tone := Some (lit "casual");
                   backstory := Some (lit "Aus dem Norden.");
                   signature := None |};
     createdAt := 1000 |}.

(** The store the scenario ends in. *)
Definition store7 : gmap jsstring SoulState :=
  run toLowerCase_latin scenario.

(** * Evaluation on concrete inputs *)

Example lit_umlaut : lit "ß—" = [223%N; 8212%N].
Proof. reflexivity. Qed.

Example lit_astral : lit "🎭" = [55356%N; 57261%N].
Proof. reflexivity. Qed.

Example trim_example : trim (lit "  Aria " ++ nl) = lit "Aria".
Proof. reflexivity. Qed.

Example ofNumber_example : ofNumber 6 = lit "6" /\ ofNumber (-3) = lit "-3".
Proof. split; reflexivity. Qed.

Example total_steps : TOTAL_STEPS = 6.
Proof. reflexivity. Qed.

Example scenario_state :
  run toLowerCase_latin scenario !! lit "s1"
  = Some {| step := 7;
            answers := {| name := Some (lit "Aria");
                          personality := Some (lit "warm, direkt, neugierig");
                          coreValues := Some (lit "Ehrlichkeit, Geduld");
                          tone := Some (lit "casual");
                          backstory := Some (lit "Aus dem Norden.");
                          signature := Some [] |};
            createdAt := 1000 |}.
Proof. vm_compute. reflexivity. Qed.

(** * The question list *)

Lemma questionAt_lookup i q :
  questionAt i = Some q <->
  0 <= i /\ SOUL_QUESTIONS !! Z.to_nat i = Some q.
Proof.
  unfold questionAt. destruct (Z.ltb_spec i 0); split.
  - discriminate.
  - intros [? _]. lia.
  - auto.
  - tauto.
Qed.

Lemma questionAt_bounds i q :
  questionAt i = Some q -> 0 <= i < TOTAL_STEPS.
Proof.
  rewrite questionAt_lookup. intros [Hi Hq]. split; [exact Hi|].
  apply lookup_lt_Some in Hq. unfold TOTAL_STEPS. lia.
Qed.

(** The entry at index [i] is the question of position [i + 1]. *)
Lemma questionAt_position i q :
  questionAt i = Some q -> q_step q = i + 1.
Proof.
  rewrite questionAt_lookup. intros [Hi Hq].
  rewrite <- (Z2Nat.id i Hi). generalize dependent (Z.to_nat i).
  intros n Hq.
  do 6 (destruct n as [|n]; [injection Hq as <-; reflexivity|]).
  discriminate.
Qed.

Lemma questionAt_defined i :
  0 <= i < TOTAL_STEPS -> is_Some (questionAt i).
Proof.
  intros [Hi Hlt]. unfold questionAt.
  destruct (Z.ltb_spec i 0); [lia|].
  apply lookup_lt_is_Some. unfold TOTAL_STEPS in Hlt. lia.
Qed.

(** Only the last question, the signature, is optional. *)
Lemma questionAt_optional i q :
  questionAt i = Some q ->
  (optional q = true <-> i = TOTAL_STEPS - 1) /\
  (optional q = true <-> field q = Fsignature).
Proof.
  rewrite questionAt_lookup. intros [Hi Hq].
  rewrite <- (Z2Nat.id i Hi). generalize dependent (Z.to_nat i).
  intros n Hq.
  do 6 (destruct n as [|n];
        [injection Hq as <-; cbn; split; split; (discriminate || reflexivity)|]).
  discriminate.
Qed.

(** * Validation of required questions *)

Ltac find_session :=
  match goal with
  | H : ?m !! ?k = Some _ |- context [?m !! ?k] => rewrite H
  end.

Ltac not_complete :=
  rewrite bool_decide_eq_false_2 by lia.

Ltac complete :=
  rewrite bool_decide_eq_true_2 by lia.

(** C1. An answer that is empty once trimmed, given to a session awaiting a
    required question, returns a failure that repeats this question and
    leaves the store, hence the session's step and answers, as it was. *)
Theorem answerQuestion_required_empty
    (toLowerCase : jsstring -> jsstring)
    (sessions : gmap jsstring SoulState) (sessionId answer : jsstring)
    (state : SoulState) (q : SoulQuestion) :
  sessions !! sessionId = Some state ->
  step state <= TOTAL_STEPS ->
  questionAt (step state - 1) = Some q ->
  optional q = false ->
  trim answer = [] ->
  exists r,
    answerQuestion toLowerCase sessions sessionId answer = (Return r, sessions)
    /\ success r = false
    /\ message r = lit "Diese Frage ist erforderlich. Bitte beantworte: "
                   ++ question q
    /\ nextQuestion r = None
    /\ currentStep r = Some (step state)
    /\ totalSteps r = Some TOTAL_STEPS
    /\ isComplete r = None
    /\ soulMd r = None.
Proof.
  intros Hs Hstep Hq Hopt Htrim. unfold answerQuestion.
  find_session. not_complete. rewrite Hq, Hopt, Htrim. cbn [andb negb].
  rewrite bool_decide_eq_true_2 by reflexivity. cbn [andb].
  eexists. split; [reflexivity|]. repeat split.
Qed.

Lemma answerQuestion_required_empty_witness :
  exists r,
    answerQuestion toLowerCase_latin store1 (lit "s1") (lit "  " ++ nl)
    = (Return r, store1)
    /\ success r = false
    /\ currentStep r = Some 1.
Proof.
  destruct (answerQuestion_required_empty toLowerCase_latin store1 (lit "s1")
              (lit "  " ++ nl) (created 1000)
              {| q_step := 1; field := Fname;
                 question := lit "Wie soll dein Agent heißen?";
                 optional := false |})
    as (r & Hr & Hf & _ & _ & Hc & _).
  - vm_compute. reflexivity.
  - vm_compute. discriminate.
  - vm_compute. reflexivity.
  - reflexivity.
  - vm_compute. reflexivity.
  - exists r. split; [exact Hr|]. split; [exact Hf|exact Hc].
Defined.

(** * Completed sessions *)

(** C8. An answer submitted to a session past the last question returns a
    successful report of completion that points to generation, and the store
    is the one it was called on. *)
Theorem answerQuestion_complete
    (toLowerCase : jsstring -> jsstring)
    (sessions : gmap jsstring SoulState) (sessionId answer : jsstring)
    (state : SoulState) :
  sessions !! sessionId = Some state ->
  step state > TOTAL_STEPS ->
  exists r,
    answerQuestion toLowerCase sessions sessionId answer = (Return r, sessions)
    /\ success r = true
    /\ isComplete r = Some true
    /\ message r = lit "Alle Fragen beantwortet! Nutze generate_soul um dein SOUL.md zu erstellen."
    /\ currentStep r = Some (step state)
    /\ totalSteps r = Some TOTAL_STEPS
    /\ nextQuestion r = None
    /\ soulMd r = None.
Proof.
  intros Hs Hstep. unfold answerQuestion. find_session. complete.
  eexists. split; [reflexivity|]. repeat split.
Qed.

Lemma answerQuestion_complete_witness :
  exists r,
    answerQuestion toLowerCase_latin store7 (lit "s1") (lit "noch etwas")
    = (Return r, store7)
    /\ success r = true
    /\ isComplete r = Some true.
Proof.
  destruct (answerQuestion_complete toLowerCase_latin store7 (lit "s1")
              (lit "noch etwas") _ scenario_state)
    as (r & Hr & Hs & Hc & _).
  - vm_compute. reflexivity.
  - exists r. split; [exact Hr|]. split; [exact Hs|exact Hc].
Defined.

(** C10. [startSoulBuilder] on a session that has answered every question
    reports success, completion and step [TOTAL_STEPS + 1], carries no next
    question, and leaves the store as it was. *)
Theorem startSoulBuilder_complete
    (now : Z) (sessions : gmap jsstring SoulState) (sessionId : jsstring)
    (state : SoulState) :
  sessions !! sessionId = Some state ->
  step state = TOTAL_STEPS + 1 ->
  exists r,
    startSoulBuilder now sessions sessionId = (Return r, sessions)
    /\ success r = true
    /\ isComplete r = Some true
    /\ currentStep r = Some (TOTAL_STEPS + 1)
    /\ nextQuestion r = None.
Proof.
  intros Hs Hstep. unfold startSoulBuilder. find_session.
  eexists. split; [reflexivity|]. cbn.
  rewrite Hstep. complete. repeat split.
Qed.

Lemma startSoulBuilder_complete_witness :
  exists r,
    startSoulBuilder 5000 store7 (lit "s1") = (Return r, store7)
    /\ success r = true
    /\ isComplete r = Some true
    /\ currentStep r = Some 7
    /\ nextQuestion r = None.
Proof.
  apply (startSoulBuilder_complete 5000 store7 (lit "s1") _ scenario_state).
  reflexivity.
Defined.

(** * Starting a session *)

(** C5. [startSoulBuilder] on an identifier that has a session returns the
    store as it was and reports that session's step and the question at that
    step, under the message of an active session; on an identifier without a
    session it adds a session at step 1 with no answers and reports the first
    question. *)
Theorem startSoulBuilder_idempotent
    (now : Z) (sessions : gmap jsstring SoulState) (sessionId : jsstring) :
  (forall existing,
      sessions !! sessionId = Some existing ->
      exists r,
        startSoulBuilder now sessions sessionId = (Return r, sessions)
        /\ success r = true
        /\ currentStep r = Some (step existing)
        /\ nextQuestion r = question <$> questionAt (step existing - 1)
        /\ (1 <= step existing <= TOTAL_STEPS ->
            exists q, questionAt (step existing - 1) = Some q
                      /\ q_step q = step existing
                      /\ nextQuestion r = Some (question q))
        /\ message r = lit "Session bereits aktiv. Wir sind bei Frage "
                       ++ ofNumber (step existing) ++ lit "/"
                       ++ ofNumber TOTAL_STEPS ++ lit ".")
  /\ (sessions !! sessionId = None ->
      exists r q,
        startSoulBuilder now sessions sessionId
        = (Return r,
           <[sessionId := {| step := 1; answers := noAnswers;
                             createdAt := now |}]> sessions)
        /\ success r = true
        /\ currentStep r = Some 1
        /\ questionAt 0 = Some q
        /\ nextQuestion r = Some (question q)
        /\ isComplete r = Some false).
Proof.
  split.
  - intros existing Hs. unfold startSoulBuilder. find_session.
    eexists. split; [reflexivity|].
    cbn [success currentStep nextQuestion message].
    do 3 (split; [reflexivity|]). split; [|reflexivity].
    intros Hrange.
    destruct (questionAt_defined (step existing - 1)) as [q Hq]; [lia|].
    exists q. rewrite Hq. split; [reflexivity|]. split; [|reflexivity].
    apply questionAt_position in Hq. lia.
  - intros Hs. unfold startSoulBuilder. rewrite Hs.
    destruct (questionAt 0) as [q|] eqn:Hq; [|discriminate].
    exists {| success := true;
              message := lit "Willkommen beim Soul Builder! 🎭" ++ nl ++ nl
                ++ lit "Ich helfe dir, die Identität deines KI-Agenten zu definieren. In "
                ++ ofNumber TOTAL_STEPS
                ++ lit " kurzen Fragen erstellen wir gemeinsam ein SOUL.md — das Herzstück deines Agenten."
                ++ nl ++ nl
                ++ lit "Die Kernthese von ag3nt.id: " ++ dq
                ++ lit "Ein Agent ohne Soul ist nur ein Werkzeug." ++ dq
                ++ nl ++ nl
                ++ lit "Lass uns starten!";
              nextQuestion := Some (question q);
              currentStep := Some 1;
              totalSteps := Some TOTAL_STEPS;
              isComplete := Some false;
              soulMd := None |}, q.
    cbn [success currentStep nextQuestion isComplete].
    split; [reflexivity|]. repeat split.
Qed.

Lemma startSoulBuilder_idempotent_witness :
  (exists r,
      startSoulBuilder 2000 store1 (lit "s1") = (Return r, store1)
      /\ currentStep r = Some 1)
  /\ (exists r,
      startSoulBuilder 2000 store1 (lit "s2")
      = (Return r, <[lit "s2" := created 2000]> store1)
      /\ currentStep r = Some 1).
Proof.
  destruct (startSoulBuilder_idempotent 2000 store1 (lit "s1")) as [Hex _].
  destruct (startSoulBuilder_idempotent 2000 store1 (lit "s2")) as [_ Hnew].
  split.
  - destruct (Hex (created 1000)) as (r & Hr & _ & Hc & _).
    + vm_compute. reflexivity.
    + exists r. split; [exact Hr|exact Hc].
  - destruct Hnew as (r & q & Hr & _ & Hc & _).
    + vm_compute. reflexivity.
    + exists r. split; [exact Hr|exact Hc].
Defined.

(** * Accepted answers *)

Lemma getAnswer_setAnswer f v a : getAnswer f (setAnswer f v a) = Some v.
Proof. destruct f; reflexivity. Qed.

Lemma getAnswer_setAnswer_ne f g v a :
  f <> g -> getAnswer f (setAnswer g v a) = getAnswer f a.
Proof. destruct f, g; (reflexivity || congruence). Qed.

(** When the session awaits a question, accepting [v] returns a successful
    report for the next step and stores the updated session. *)
Lemma storeAndAdvance_returns sessions sessionId state q v :
  questionAt (step state - 1) = Some q ->
  exists r,
    storeAndAdvance sessions sessionId state q v
    = (Return r, <[sessionId := answered state q v]> sessions)
    /\ success r = true
    /\ currentStep r = Some (step state + 1)
    /\ totalSteps r = Some TOTAL_STEPS
    /\ isComplete r = Some (bool_decide (step state + 1 > TOTAL_STEPS))
    /\ nextQuestion r = question <$> questionAt (step state).
Proof.
  intros Hq. apply questionAt_bounds in Hq. unfold storeAndAdvance.
  cbn [answered step]. case_bool_decide as Hc.
  - eexists. split; [reflexivity|].
    cbn [success currentStep totalSteps isComplete nextQuestion].
    do 4 (split; [reflexivity|]).
    destruct (questionAt (step state)) as [q'|] eqn:Hq'; [|reflexivity].
    apply questionAt_bounds in Hq'. lia.
  - replace (step state + 1 - 1) with (step state) by lia.
    destruct (questionAt_defined (step state)) as [q' Hq']; [lia|].
    rewrite Hq'. eexists. split; [reflexivity|]. repeat split.
Qed.

(** C2. For a session awaiting a question: an optional question whose
    trimmed answer lower-cases to [skip] stores the empty string and
    advances; a required question stores any non-empty trimmed answer as it
    is, the text [skip] included, and advances; and for a non-empty trimmed
    answer the stored value is the empty string exactly when the question is
    optional and the answer lower-cases to [skip]. *)
Theorem answerQuestion_skip
    (toLowerCase : jsstring -> jsstring)
    (sessions : gmap jsstring SoulState) (sessionId answer : jsstring)
    (state : SoulState) (q : SoulQuestion) :
  sessions !! sessionId = Some state ->
  questionAt (step state - 1) = Some q ->
  (optional q = true -> toLowerCase (trim answer) = lit "skip" ->
   exists r,
     answerQuestion toLowerCase sessions sessionId answer
     = (Return r, <[sessionId := answered state q []]> sessions)
     /\ success r = true
     /\ currentStep r = Some (step state + 1))
  /\ (optional q = false -> trim answer <> [] ->
      exists r,
        answerQuestion toLowerCase sessions sessionId answer
        = (Return r, <[sessionId := answered state q (trim answer)]> sessions)
        /\ success r = true
        /\ currentStep r = Some (step state + 1))
  /\ (optional q = false -> trim answer = lit "skip" ->
      exists r,
        answerQuestion toLowerCase sessions sessionId answer
        = (Return r, <[sessionId := answered state q (lit "skip")]> sessions)
        /\ success r = true
        /\ currentStep r = Some (step state + 1)
        /\ lit "skip" <> [])
  /\ (trim answer <> [] ->
      exists r state',
        answerQuestion toLowerCase sessions sessionId answer
        = (Return r, <[sessionId := state']> sessions)
        /\ step state' = step state + 1
        /\ (getAnswer (field q) (answers state') = Some [] <->
            optional q = true /\ toLowerCase (trim answer) = lit "skip")
        /\ (getAnswer (field q) (answers state') <> Some [] ->
            getAnswer (field q) (answers state') = Some (trim answer))).
Proof.
  intros Hs Hq.
  assert (Hstep : ~ step state > TOTAL_STEPS)
    by (apply questionAt_bounds in Hq; lia).
  assert (Hreq : optional q = false -> trim answer <> [] ->
          answerQuestion toLowerCase sessions sessionId answer
          = storeAndAdvance sessions sessionId state q (trim answer)).
  { intros Hopt Hne. unfold answerQuestion. find_session.
    rewrite bool_decide_eq_false_2 by exact Hstep. rewrite Hq, Hopt.
    cbn [andb negb]. rewrite bool_decide_eq_false_2 by exact Hne.
    reflexivity. }
  assert (Hskip : optional q = true -> toLowerCase (trim answer) = lit "skip" ->
          answerQuestion toLowerCase sessions sessionId answer
          = storeAndAdvance sessions sessionId state q []).
  { intros Hopt Hlow. unfold answerQuestion. find_session.
    rewrite bool_decide_eq_false_2 by exact Hstep. rewrite Hq, Hopt.
    rewrite bool_decide_eq_true_2 by exact Hlow. reflexivity. }
  assert (Hkeep : optional q = true -> toLowerCase (trim answer) <> lit "skip" ->
          answerQuestion toLowerCase sessions sessionId answer
          = storeAndAdvance sessions sessionId state q (trim answer)).
  { intros Hopt Hlow. unfold answerQuestion. find_session.
    rewrite bool_decide_eq_false_2 by exact Hstep. rewrite Hq, Hopt.
    rewrite bool_decide_eq_false_2 by exact Hlow.
    cbn [andb negb]. rewrite andb_false_r. reflexivity. }
  split; [|split; [|split]].
  - intros Hopt Hlow. rewrite (Hskip Hopt Hlow).
    destruct (storeAndAdvance_returns sessions sessionId state q [] Hq)
      as (r & Hr & Hsucc & Hcur & _).
    exists r. auto.
  - intros Hopt Hne. rewrite (Hreq Hopt Hne).
    destruct (storeAndAdvance_returns sessions sessionId state q (trim answer) Hq)
      as (r & Hr & Hsucc & Hcur & _).
    exists r. auto.
  - intros Hopt Hlit.
    assert (Hne : trim answer <> []) by (rewrite Hlit; discriminate).
    rewrite (Hreq Hopt Hne), Hlit.
    destruct (storeAndAdvance_returns sessions sessionId state q (lit "skip") Hq)
      as (r & Hr & Hsucc & Hcur & _).
    exists r. repeat split; try assumption. discriminate.
  - intros Hne. destruct (optional q) eqn:Hopt.
    + destruct (decide (toLowerCase (trim answer) = lit "skip")) as [Hlow|Hlow].
      * rewrite (Hskip eq_refl Hlow).
        destruct (storeAndAdvance_returns sessions sessionId state q [] Hq)
          as (r & Hr & _).
        exists r, (answered state q []). split; [exact Hr|].
        cbn [answered step answers]. rewrite getAnswer_setAnswer.
        split; [reflexivity|]. split; [tauto|congruence].
      * rewrite (Hkeep eq_refl Hlow).
        destruct (storeAndAdvance_returns sessions sessionId state q (trim answer) Hq)
          as (r & Hr & _).
        exists r, (answered state q (trim answer)). split; [exact Hr|].
        cbn [answered step answers]. rewrite getAnswer_setAnswer.
        split; [reflexivity|]. split; [|reflexivity].
        split; [congruence|tauto].
    + rewrite (Hreq eq_refl Hne).
      destruct (storeAndAdvance_returns sessions sessionId state q (trim answer) Hq)
        as (r & Hr & _).
      exists r, (answered state q (trim answer)). split; [exact Hr|].
      cbn [answered step answers]. rewrite getAnswer_setAnswer.
      split; [reflexivity|]. split; [|reflexivity].
      split; [congruence|]. intros [? _]. discriminate.
Qed.

Lemma answerQuestion_skip_witness :
  (exists r,
      answerQuestion toLowerCase_latin store6 (lit "s1") (lit " Skip ")
      = (Return r, store7)
      /\ success r = true
      /\ currentStep r = Some 7)
  /\ (exists r,
      answerQuestion toLowerCase_latin store1 (lit "s1") (lit "skip")
      = (Return r, <[lit "s1" := {| step := 2;
                                    answers := setAnswer Fname (lit "skip") noAnswers;
                                    createdAt := 1000 |}]> store1)
      /\ success r = true
      /\ currentStep r = Some 2
      /\ lit "skip" <> []).
Proof.
  split.
  - destruct (answerQuestion_skip toLowerCase_latin store6 (lit "s1")
                (lit " Skip ")
                {| step := 6;
                   answers := {| name := Some (lit "Aria");
                                 personality := Some (lit "warm, direkt, neugierig");
                                 coreValues := Some (lit "Ehrlichkeit, Geduld");
                                 tone := Some (lit "casual");
                                 backstory := Some (lit "Aus dem Norden.");
                                 signature := None |};
                   createdAt := 1000 |}
                {| q_step := 6; field := Fsignature;
                   question := lit "Ein typischer Erkennungs-Satz deines Agenten? (oder " ++ dq
                               ++ lit "skip" ++ dq ++ lit " zum Überspringen)";
                   optional := true |})
      as (Hskip & _).
    + vm_compute. reflexivity.
    + vm_compute. reflexivity.
    + destruct Hskip as (r & Hr & Hs & Hc).
      * reflexivity.
      * vm_compute. reflexivity.
      * exists r. split; [|split; [exact Hs|exact Hc]].
        rewrite Hr. vm_compute. reflexivity.
  - destruct (answerQuestion_skip toLowerCase_latin store1 (lit "s1")
                (lit "skip") (created 1000)
                {| q_step := 1; field := Fname;
                   question := lit "Wie soll dein Agent heißen?";
                   optional := false |})
      as (_ & _ & Hlit & _).
    + vm_compute. reflexivity.
    + vm_compute. reflexivity.
    + apply Hlit.
      * reflexivity.
      * vm_compute. reflexivity.
Defined.

(** * The store across calls *)

Lemma startSoulBuilder_store now sessions sessionId :
  (startSoulBuilder now sessions sessionId).2
  = match sessions !! sessionId with
    | Some _ => sessions
    | None => <[sessionId := created now]> sessions
    end.
Proof.
  unfold startSoulBuilder. destruct (sessions !! sessionId); [reflexivity|].
  destruct (questionAt 0); reflexivity.
Qed.

Lemma storeAndAdvance_store sessions sessionId state q v :
  (storeAndAdvance sessions sessionId state q v).2
  = <[sessionId := answered state q v]> sessions.
Proof.
  unfold storeAndAdvance. case_bool_decide; [reflexivity|].
  destruct (questionAt _); reflexivity.
Qed.

(** [answerQuestion] either leaves the store alone or replaces the entry of
    a session that awaits a question by its [answered] successor. *)
Lemma answerQuestion_store toLowerCase sessions sessionId answer :
  (answerQuestion toLowerCase sessions sessionId answer).2 = sessions
  \/ exists state q v,
       sessions !! sessionId = Some state
       /\ questionAt (step state - 1) = Some q
       /\ (answerQuestion toLowerCase sessions sessionId answer).2
          = <[sessionId := answered state q v]> sessions.
Proof.
  unfold answerQuestion.
  destruct (sessions !! sessionId) as [state|] eqn:Hs; [|left; reflexivity].
  case_bool_decide; [left; reflexivity|].
  destruct (questionAt (step state - 1)) as [q|] eqn:Hq; [|left; reflexivity].
  destruct (optional q && _).
  - right. exists state, q, []. rewrite storeAndAdvance_store. auto.
  - destruct (bool_decide _ && _); [left; reflexivity|].
    right. exists state, q, (trim answer). rewrite storeAndAdvance_store. auto.
Qed.

Lemma sweep_lookup now sessions sessionId state :
  sweep now sessions !! sessionId = Some state <->
  sessions !! sessionId = Some state /\ ~ expired now state.
Proof. unfold sweep. apply map_lookup_filter_Some. Qed.

(** Across any call, every session appears at step 1, disappears, or keeps
    or increments its step. *)
Lemma handle_stepsBy toLowerCase sessions c sessionId :
  stepsBy (sessions !! sessionId) (handle toLowerCase sessions c !! sessionId).
Proof.
  assert (Hsame : forall o, stepsBy o o) by (intros [s|]; cbn; auto).
  destruct c as [now id | id answer | id | id | now]; cbn [handle].
  - rewrite startSoulBuilder_store.
    destruct (sessions !! id) eqn:Hid; [apply Hsame|].
    destruct (decide (id = sessionId)) as [->|Hne].
    + rewrite Hid, lookup_insert_eq. reflexivity.
    + rewrite lookup_insert_ne by exact Hne. apply Hsame.
  - destruct (answerQuestion_store toLowerCase sessions id answer)
      as [-> | (state & q & v & Hs & _ & ->)]; [apply Hsame|].
    destruct (decide (id = sessionId)) as [->|Hne].
    + rewrite Hs, lookup_insert_eq. right. reflexivity.
    + rewrite lookup_insert_ne by exact Hne. apply Hsame.
  - apply Hsame.
  - apply Hsame.
  - destruct (sweep now sessions !! sessionId) as [s'|] eqn:Hs'.
    + apply sweep_lookup in Hs' as [-> _]. left. reflexivity.
    + destruct (sessions !! sessionId); exact I.
Qed.

Lemma handle_wellStepped toLowerCase sessions c :
  wellStepped sessions -> wellStepped (handle toLowerCase sessions c).
Proof.
  intros Hw id s' Hs'.
  pose proof (handle_stepsBy toLowerCase sessions c id) as Hby.
  rewrite Hs' in Hby. destruct (sessions !! id) as [s|] eqn:Hs.
  - specialize (Hw id s Hs). destruct Hby as [Heq|Heq]; [lia|].
    destruct c as [now id' | id' answer | id' | id' | now]; cbn [handle] in Hs'.
    + rewrite startSoulBuilder_store in Hs'.
      destruct (sessions !! id') eqn:Hid'; [congruence|].
      destruct (decide (id' = id)) as [->|Hne]; [congruence|].
      rewrite lookup_insert_ne in Hs' by exact Hne. assert (s' = s) by congruence.
      subst. lia.
    + destruct (answerQuestion_store toLowerCase sessions id' answer)
        as [Hsame | (state & q & v & Hst & Hq & Hins)].
      * rewrite Hsame in Hs'. assert (s' = s) by congruence. subst. lia.
      * rewrite Hins in Hs'. apply questionAt_bounds in Hq.
        destruct (decide (id' = id)) as [->|Hne].
        -- rewrite lookup_insert_eq in Hs'. injection Hs' as <-.
           cbn [answered step]. lia.
        -- rewrite lookup_insert_ne in Hs' by exact Hne.
           assert (s' = s) by congruence. subst. lia.
    + assert (s' = s) by congruence. subst. lia.
    + assert (s' = s) by congruence. subst. lia.
    + apply sweep_lookup in Hs' as [Hs' _]. assert (s' = s) by congruence.
      subst. lia.
  - cbn in Hby. unfold TOTAL_STEPS. cbn. lia.
Qed.

Lemma run_snoc toLowerCase calls c :
  run toLowerCase (calls ++ [c])
  = handle toLowerCase (run toLowerCase calls) c.
Proof. unfold run. apply foldl_snoc. Qed.

Lemma run_wellStepped toLowerCase calls : wellStepped (run toLowerCase calls).
Proof.
  induction calls as [|c calls IH] using rev_ind.
  - intros id s Hs. unfold run in Hs. cbn in Hs.
    rewrite lookup_empty in Hs. discriminate.
  - rewrite run_snoc. apply handle_wellStepped, IH.
Qed.

(** C4. Along every sequence of calls from the empty store, and for every
    session identifier: a session enters the store at step 1; while it stays
    in the store each call keeps its step or adds one to it; and its step
    lies between 1 and [TOTAL_STEPS + 1]. *)
Theorem currentStep_progression
    (toLowerCase : jsstring -> jsstring) (calls : list call) (c : call)
    (sessionId : jsstring) :
  let before := run toLowerCase calls !! sessionId in
  let after := run toLowerCase (calls ++ [c]) !! sessionId in
  match before, after with
  | None, Some s' => step s' = 1
  | Some s, Some s' =>
      (step s' = step s \/ step s' = step s + 1) /\ step s <= step s'
  | _, None => True
  end
  /\ match after with
     | Some s' => 1 <= step s' <= TOTAL_STEPS + 1
     | None => True
     end.
Proof.
  cbn zeta. rewrite run_snoc.
  pose proof (handle_stepsBy toLowerCase (run toLowerCase calls) c sessionId)
    as Hby.
  pose proof (run_wellStepped toLowerCase (calls ++ [c]) sessionId) as Hw.
  rewrite run_snoc in Hw. unfold stepsBy in Hby.
  destruct (run toLowerCase calls !! sessionId) as [s|],
           (handle toLowerCase (run toLowerCase calls) c !! sessionId) as [s'|];
    auto.
  split; [|auto]. split; [exact Hby|lia].
Qed.

(** * What an answer changes *)

Lemma answerQuestion_no_session toLowerCase sessions sessionId answer r sessions' :
  sessions !! sessionId = None ->
  answerQuestion toLowerCase sessions sessionId answer = (Return r, sessions') ->
  success r = false.
Proof.
  intros Hs. unfold answerQuestion. rewrite Hs. intros [= <- _]. reflexivity.
Qed.

(** One call keeps the creation time of every session it keeps. *)
Lemma handle_createdAt toLowerCase sessions c sessionId s s' :
  sessions !! sessionId = Some s ->
  handle toLowerCase sessions c !! sessionId = Some s' ->
  createdAt s' = createdAt s.
Proof.
  intros Hs Hs'.
  destruct c as [now id | id answer | id | id | now]; cbn [handle] in Hs'.
  - rewrite startSoulBuilder_store in Hs'.
    destruct (sessions !! id) eqn:Hid; [congruence|].
    destruct (decide (id = sessionId)) as [->|Hne]; [congruence|].
    rewrite lookup_insert_ne in Hs' by exact Hne. congruence.
  - destruct (answerQuestion_store toLowerCase sessions id answer)
      as [Hsame | (state & q & v & Hst & _ & Hins)].
    + rewrite Hsame in Hs'. congruence.
    + rewrite Hins in Hs'. destruct (decide (id = sessionId)) as [->|Hne].
      * rewrite lookup_insert_eq in Hs'. injection Hs' as <-.
        cbn [answered createdAt]. congruence.
      * rewrite lookup_insert_ne in Hs' by exact Hne. congruence.
  - congruence.
  - congruence.
  - apply sweep_lookup in Hs' as [Hs' _]. congruence.
Qed.

(** A session that is in the store before and after every call of a
    sequence ends with the creation time it began with. *)
Lemma foldl_handle_createdAt toLowerCase calls :
  forall sessions sessionId s',
    (forall p, p `prefix_of` calls ->
               is_Some (foldl (handle toLowerCase) sessions p !! sessionId)) ->
    foldl (handle toLowerCase) sessions calls !! sessionId = Some s' ->
    exists s, sessions !! sessionId = Some s /\ createdAt s' = createdAt s.
Proof.
  induction calls as [|c calls IH]; intros sessions id s' Hlive Hend.
  - exists s'. split; [exact Hend|reflexivity].
  - destruct (Hlive [] (prefix_nil _)) as [s Hs].
    destruct (Hlive [c]) as [s1 Hs1].
    { apply (prefix_cons c [] calls), prefix_nil. }
    cbn [foldl] in Hs, Hs1, Hend.
    destruct (IH (handle toLowerCase sessions c) id s') as (s1' & Hs1' & Heq).
    + intros p Hp. apply (Hlive (c :: p)). apply prefix_cons, Hp.
    + exact Hend.
    + exists s. split; [exact Hs|]. rewrite Heq.
      assert (s1' = s1) by congruence. subst.
      eapply handle_createdAt; eassumption.
Qed.

(** C9. A successful [answerQuestion] either returns the store as it was or
    replaces the session's entry by one with the step incremented, the
    field of the current question set and everything else, the creation time
    included, as before; other sessions and other fields are untouched. No
    call changes the creation time of a session it keeps, so a session that
    stays in the store through any sequence of calls fails or passes the
    expiry test at a given time exactly as it did at the start, and the sweep
    deletes an answered session that has expired. *)
Theorem answerQuestion_frame
    (toLowerCase : jsstring -> jsstring)
    (sessions sessions' : gmap jsstring SoulState)
    (sessionId answer : jsstring) (r : ToolResult) :
  answerQuestion toLowerCase sessions sessionId answer = (Return r, sessions') ->
  success r = true ->
  exists state,
    sessions !! sessionId = Some state
    /\ (sessions' = sessions
        \/ exists q v,
             questionAt (step state - 1) = Some q
             /\ sessions'
                = <[sessionId := {| step := step state + 1;
                                    answers := setAnswer (field q) v (answers state);
                                    createdAt := createdAt state |}]> sessions
             /\ forall f, f <> field q ->
                  getAnswer f (setAnswer (field q) v (answers state))
                  = getAnswer f (answers state))
    /\ (forall other, other <> sessionId ->
          sessions' !! other = sessions !! other)
    /\ (exists state',
          sessions' !! sessionId = Some state'
          /\ createdAt state' = createdAt state
          /\ forall now,
               (expired now state' <-> expired now state)
               /\ (expired now state -> sweep now sessions' !! sessionId = None))
    /\ (forall calls other s',
          (forall p, p `prefix_of` calls ->
             is_Some (foldl (handle toLowerCase) sessions' p !! other)) ->
          foldl (handle toLowerCase) sessions' calls !! other = Some s' ->
          exists s, sessions' !! other = Some s
                    /\ createdAt s' = createdAt s
                    /\ forall now, expired now s' <-> expired now s).
Proof.
  intros Hcall Hsucc.
  destruct (sessions !! sessionId) as [state|] eqn:Hs.
  2: { pose proof (answerQuestion_no_session _ _ _ _ _ _ Hs Hcall). congruence. }
  exists state. split; [reflexivity|].
  assert (Hstore : (answerQuestion toLowerCase sessions sessionId answer).2
                   = sessions') by (rewrite Hcall; reflexivity).
  assert (Hlast : forall calls other s',
            (forall p, p `prefix_of` calls ->
               is_Some (foldl (handle toLowerCase) sessions' p !! other)) ->
            foldl (handle toLowerCase) sessions' calls !! other = Some s' ->
            exists s, sessions' !! other = Some s
                      /\ createdAt s' = createdAt s
                      /\ forall now, expired now s' <-> expired now s).
  { intros calls other s' Hlive Hend.
    destruct (foldl_handle_createdAt toLowerCase calls sessions' other s' Hlive Hend)
      as (s & Hso & Heq).
    exists s. split; [exact Hso|]. split; [exact Heq|].
    intros now. unfold expired. rewrite Heq. reflexivity. }
  assert (Hsweep : forall now state',
            sessions' !! sessionId = Some state' ->
            createdAt state' = createdAt state ->
            (expired now state' <-> expired now state)
            /\ (expired now state -> sweep now sessions' !! sessionId = None)).
  { intros now state' Hs' Heq. split.
    - unfold expired. rewrite Heq. reflexivity.
    - intros Hexp. destruct (sweep now sessions' !! sessionId) as [x|] eqn:Hx;
        [|reflexivity].
      apply sweep_lookup in Hx as [Hx Hnot]. exfalso. apply Hnot.
      assert (x = state') by congruence. subst. unfold expired in *.
      rewrite Heq. exact Hexp. }
  destruct (answerQuestion_store toLowerCase sessions sessionId answer)
    as [Hsame | (state0 & q & v & Hst & Hq & Hins)].
  - rewrite Hstore in Hsame. clear Hstore. subst sessions'.
    split; [left; reflexivity|]. split; [reflexivity|].
    split; [|exact Hlast].
    exists state. split; [exact Hs|]. split; [reflexivity|].
    intros now. apply Hsweep; [exact Hs|reflexivity].
  - rewrite Hstore in Hins. clear Hstore.
    assert (state0 = state) by congruence. subst state0.
    split; [|split; [|split; [|exact Hlast]]].
    + right. exists q, v. split; [exact Hq|]. split; [exact Hins|].
      intros f Hf. apply getAnswer_setAnswer_ne, Hf.
    + intros other Hne. rewrite Hins. apply lookup_insert_ne. congruence.
    + exists (answered state q v). rewrite Hins at 1.
      split; [apply lookup_insert_eq|]. split; [reflexivity|].
      intros now. apply Hsweep; [|reflexivity].
      rewrite Hins. apply lookup_insert_eq.
Qed.

Lemma answerQuestion_frame_witness :
  let out := answerQuestion toLowerCase_latin store1 (lit "s1") (lit "Aria") in
  exists state',
    out.2 !! lit "s1" = Some state' /\ createdAt state' = 1000.
Proof.
  intros out.
  destruct (answerQuestion_frame toLowerCase_latin store1 out.2 (lit "s1")
              (lit "Aria")
              (match out.1 with Return r => r | Throw => noSession end))
    as (state & Hs & _ & _ & (state' & Hs' & Hc & _) & _).
  - vm_compute. reflexivity.
  - vm_compute. reflexivity.
  - exists state'. split; [exact Hs'|]. rewrite Hc.
    assert (Heq : Some state = Some (created 1000))
      by (rewrite <- Hs; vm_compute; reflexivity).
    injection Heq as ->. reflexivity.
Defined.

(** * Generation before completion *)

(** C3, as the code has it. For a session with [step <= TOTAL_STEPS] both
    [generateSoul] and [exportSoul] fail and carry no document.
    [generateSoul] prints the count [TOTAL_STEPS - step + 1] of open
    questions in its message and reports the step counters; [exportSoul]
    returns one fixed message and no counters. *)
Theorem notComplete_reports
    (sessions : gmap jsstring SoulState) (sessionId : jsstring)
    (state : SoulState) :
  sessions !! sessionId = Some state ->
  step state <= TOTAL_STEPS ->
  let g := generateSoul sessions sessionId in
  let e := exportSoul sessions sessionId in
  success g = false
  /\ soulMd g = None
  /\ message g = lit "Noch " ++ ofNumber (TOTAL_STEPS - step state + 1)
                 ++ lit " Frage(n) offen. Bitte beantworte alle Fragen zuerst."
  /\ reportsCount g (TOTAL_STEPS - step state + 1)
  /\ currentStep g = Some (step state)
  /\ totalSteps g = Some TOTAL_STEPS
  /\ success e = false
  /\ soulMd e = None
  /\ message e = lit "Soul noch nicht vollständig. Bitte beantworte alle Fragen und nutze generate_soul."
  /\ currentStep e = None
  /\ totalSteps e = None.
Proof.
  intros Hs Hstep. cbn zeta. unfold generateSoul, exportSoul, reportsCount.
  rewrite Hs. rewrite !bool_decide_eq_true_2 by exact Hstep.
  cbn [success soulMd message currentStep totalSteps].
  repeat split. exists (lit "Noch "). eexists. reflexivity.
Qed.

Lemma notComplete_reports_witness :
  success (generateSoul store6 (lit "s1")) = false
  /\ reportsCount (generateSoul store6 (lit "s1")) 1
  /\ success (exportSoul store6 (lit "s1")) = false
  /\ currentStep (exportSoul store6 (lit "s1")) = None.
Proof.
  destruct (notComplete_reports store6 (lit "s1")
              {| step := 6;
                 answers := {| name := Some (lit "Aria");
                               personality := Some (lit "warm, direkt, neugierig");
                               coreValues := Some (lit "Ehrlichkeit, Geduld");
                               tone := Some (lit "casual");
                               backstory := Some (lit "Aus dem Norden.");
                               signature := None |};
                 createdAt := 1000 |})
    as (Hg & _ & _ & Hcount & _ & _ & He & _ & _ & Hc & _).
  - vm_compute. reflexivity.
  - vm_compute. discriminate.
  - split; [exact Hg|]. split; [exact Hcount|]. split; [exact He|exact Hc].
Defined.

(** C3 as stated fails for [exportSoul]: for the new session of [store1],
    with six questions open, the failure of [exportSoul] does not print the
    count and carries no step counter. *)
Lemma exportSoul_omits_count :
  store1 !! lit "s1" = Some (created 1000)
  /\ step (created 1000) <= TOTAL_STEPS
  /\ success (exportSoul store1 (lit "s1")) = false
  /\ ~ reportsCount (exportSoul store1 (lit "s1"))
         (TOTAL_STEPS - step (created 1000) + 1)
  /\ currentStep (exportSoul store1 (lit "s1")) = None.
Proof.
  split; [vm_compute; reflexivity|].
  split; [vm_compute; discriminate|].
  split; [vm_compute; reflexivity|].
  split; [|vm_compute; reflexivity].
  intros (p & q & Heq).
  assert (Hall : forallb (fun c => negb (c =? 54)%N)
                   (message (exportSoul store1 (lit "s1"))) = true)
    by (vm_compute; reflexivity).
  rewrite Heq in Hall. change (ofNumber (TOTAL_STEPS - step (created 1000) + 1))
    with [54%N] in Hall.
  rewrite forallb_app in Hall. apply andb_prop in Hall as [_ Hall].
  cbn in Hall. discriminate.
Qed.

(** * The document *)

(** C6. The document of a complete answer set ends with the signature
    heading, a body and the fixed footer; what precedes the heading does not
    depend on the signature. The body is the stored signature when that is
    not empty and the placeholder when it is empty; it is never empty. *)
Theorem generateSoulMd_signature (n p c t b : jsstring) :
  exists pre,
    forall s,
      exists body,
        generateSoulMd {| name := Some n; personality := Some p;
                          coreValues := Some c; tone := Some t;
                          backstory := Some b; signature := Some s |}
        = pre ++ lit "## Signature" ++ nl ++ body ++ footer
        /\ body <> []
        /\ (s <> [] -> body = s)
        /\ (s = [] -> body = lit "*Keine Signatur definiert*").
Proof.
  exists (lit "# SOUL.md — " ++ n ++ nl ++ nl
          ++ lit "## Identity" ++ nl
          ++ lit "**Name:** " ++ n ++ nl
          ++ lit "**Personality:** " ++ p ++ nl
          ++ lit "**Core Values:** " ++ c ++ nl ++ nl
          ++ lit "## Communication Style" ++ nl
          ++ lit "**Tone:** " ++ t ++ nl ++ nl
          ++ lit "## Backstory" ++ nl
          ++ b ++ nl ++ nl).
  intros s. unfold generateSoulMd, signatureSection, footer.
  cbn [name personality coreValues tone backstory signature tpl truthy].
  destruct s as [|u s].
  - exists (lit "*Keine Signatur definiert*").
    split; [|split; [discriminate|split; [congruence|reflexivity]]].
    rewrite <- !app_assoc. reflexivity.
  - exists (u :: s).
    split; [|split; [discriminate|split; [reflexivity|discriminate]]].
    rewrite <- !app_assoc. reflexivity.
Qed.

Lemma generateSoulMd_signature_witness :
  exists pre body,
    generateSoulMd {| name := Some (lit "Aria");
                      personality := Some (lit "warm");
                      coreValues := Some (lit "Geduld");
                      tone := Some (lit "casual");
                      backstory := Some (lit "Aus dem Norden.");
                      signature := Some [] |}
    = pre ++ lit "## Signature" ++ nl ++ body ++ footer
    /\ body = lit "*Keine Signatur definiert*".
Proof.
  destruct (generateSoulMd_signature (lit "Aria") (lit "warm") (lit "Geduld")
              (lit "casual") (lit "Aus dem Norden.")) as [pre Hpre].
  destruct (Hpre []) as (body & Hdoc & _ & _ & Hempty).
  exists pre, body. split; [exact Hdoc|]. apply Hempty. reflexivity.
Defined.

(** C7. For a complete session [generateSoul] and [exportSoul] both succeed
    with the document [generateSoulMd] makes of the session's answers, so
    with the same text; [exportSoul] reads the store alone and a
    [generate_soul] call leaves the store as it is, so it needs no earlier
    generation; and sessions with equal answers, in whatever stores, get the
    same document from either operation. *)
Theorem generate_export_agree
    (sessions : gmap jsstring SoulState) (sessionId : jsstring)
    (state : SoulState) :
  sessions !! sessionId = Some state ->
  step state > TOTAL_STEPS ->
  success (generateSoul sessions sessionId) = true
  /\ success (exportSoul sessions sessionId) = true
  /\ soulMd (generateSoul sessions sessionId)
     = Some (generateSoulMd (answers state))
  /\ soulMd (exportSoul sessions sessionId)
     = soulMd (generateSoul sessions sessionId)
  /\ (forall toLowerCase other,
        handle toLowerCase sessions (generate_soul other) = sessions
        /\ handle toLowerCase sessions (export_soul other) = sessions)
  /\ (forall sessions2 sessionId2 state2,
        sessions2 !! sessionId2 = Some state2 ->
        step state2 > TOTAL_STEPS ->
        answers state2 = answers state ->
        soulMd (exportSoul sessions2 sessionId2)
        = soulMd (generateSoul sessions sessionId)
        /\ soulMd (generateSoul sessions2 sessionId2)
           = soulMd (generateSoul sessions sessionId)).
Proof.
  intros Hs Hstep.
  assert (Hgen : forall m k st, m !! k = Some st -> step st > TOTAL_STEPS ->
            generateSoul m k
            = {| success := true;
                 message := lit "SOUL.md für " ++ dq ++ tpl (name (answers st))
                            ++ dq ++ lit " erfolgreich generiert!";
                 nextQuestion := None; currentStep := None; totalSteps := None;
                 isComplete := Some true;
                 soulMd := Some (generateSoulMd (answers st)) |}).
  { intros m k st Hm Hst. unfold generateSoul. rewrite Hm.
    rewrite bool_decide_eq_false_2 by lia. reflexivity. }
  assert (Hexp : forall m k st, m !! k = Some st -> step st > TOTAL_STEPS ->
            exportSoul m k
            = {| success := true;
                 message := lit "Hier ist dein SOUL.md zum Kopieren:";
                 nextQuestion := None; currentStep := None; totalSteps := None;
                 isComplete := None;
                 soulMd := Some (generateSoulMd (answers st)) |}).
  { intros m k st Hm Hst. unfold exportSoul. rewrite Hm.
    rewrite bool_decide_eq_false_2 by lia. reflexivity. }
  rewrite (Hgen _ _ _ Hs Hstep), (Hexp _ _ _ Hs Hstep).
  cbn [success soulMd]. do 4 (split; [reflexivity|]).
  split; [intros; split; reflexivity|].
  intros sessions2 sessionId2 state2 Hs2 Hstep2 Heq.
  rewrite (Hexp _ _ _ Hs2 Hstep2), (Hgen _ _ _ Hs2 Hstep2).
  cbn [soulMd]. rewrite Heq. split; reflexivity.
Qed.

Lemma generate_export_agree_witness :
  success (exportSoul store7 (lit "s1")) = true
  /\ soulMd (exportSoul store7 (lit "s1"))
     = soulMd (generateSoul store7 (lit "s1")).
Proof.
  destruct (generate_export_agree store7 (lit "s1") _ scenario_state)
    as (_ & He & _ & Heq & _).
  - vm_compute. reflexivity.
  - split; [exact He|exact Heq].
Defined.

(** * No call throws on a reachable store *)

Lemma startSoulBuilder_returns now sessions sessionId :
  exists r, (startSoulBuilder now sessions sessionId).1 = Return r.
Proof.
  unfold startSoulBuilder. destruct (sessions !! sessionId); [eexists; reflexivity|].
  destruct (questionAt 0) eqn:Hq; [eexists; reflexivity|discriminate].
Qed.

Lemma answerQuestion_returns toLowerCase calls sessionId answer :
  exists r,
    (answerQuestion toLowerCase (run toLowerCase calls) sessionId answer).1
    = Return r.
Proof.
  pose proof (run_wellStepped toLowerCase calls sessionId) as Hw.
  unfold answerQuestion.
  destruct (run toLowerCase calls !! sessionId) as [state|];
    [|eexists; reflexivity].
  specialize (Hw state eq_refl).
  case_bool_decide as Hc; [eexists; reflexivity|].
  destruct (questionAt_defined (step state - 1)) as [q Hq]; [lia|].
  rewrite Hq.
  destruct (optional q && _).
  - destruct (storeAndAdvance_returns (run toLowerCase calls) sessionId state q [] Hq)
      as (r & -> & _).
    exists r. reflexivity.
  - destruct (bool_decide _ && _); [eexists; reflexivity|].
    destruct (storeAndAdvance_returns (run toLowerCase calls) sessionId state q
                (trim answer) Hq) as (r & -> & _).
    exists r. reflexivity.
Qed.

(** * The question table *)

Lemma questionAt_field_inj i j q q' :
  questionAt i = Some q -> questionAt j = Some q' ->
  field q = field q' -> i = j.
Proof.
  rewrite !questionAt_lookup. intros [Hi Hq] [Hj Hq'] Hf.
  rewrite <- (Z2Nat.id i Hi), <- (Z2Nat.id j Hj). f_equal.
  revert Hq Hq'. generalize (Z.to_nat i), (Z.to_nat j). intros n m Hq Hq'.
  do 6 (destruct n as [|n];
        [injection Hq as <-;
         do 6 (destruct m as [|m];
               [injection Hq' as <-; cbn [field] in Hf;
                (reflexivity || discriminate)|]);
         discriminate|]).
  discriminate.
Qed.

Lemma questionAt_covers f : exists i q, questionAt i = Some q /\ field q = f.
Proof.
  destruct f;
    [exists 0|exists 1|exists 2|exists 3|exists 4|exists 5];
    eexists; split; reflexivity.
Qed.

Lemma questionAt_prompt i q : questionAt i = Some q -> question q <> [].
Proof.
  rewrite questionAt_lookup. intros [Hi Hq]. revert Hq.
  generalize (Z.to_nat i). intros n Hq.
  do 6 (destruct n as [|n]; [injection Hq as <-; discriminate|]).
  discriminate.
Qed.

(** X1. The table of questions is well formed: there are six; the question at
    index [i] has position [i + 1] and a non-empty prompt, and is optional
    exactly when it asks for the signature; and every field of the answers
    is asked for by exactly one question. *)
Theorem SOUL_QUESTIONS_wellformed :
  TOTAL_STEPS = 6
  /\ (forall i, is_Some (questionAt i) <-> 0 <= i < TOTAL_STEPS)
  /\ (forall i q,
        questionAt i = Some q ->
        q_step q = i + 1
        /\ question q <> []
        /\ (optional q = true <-> field q = Fsignature))
  /\ (forall f, exists i q,
        questionAt i = Some q /\ field q = f
        /\ forall j q', questionAt j = Some q' -> field q' = f -> j = i).
Proof.
  split; [reflexivity|]. split; [|split].
  - intros i. split.
    + intros [q Hq]. eapply questionAt_bounds, Hq.
    + apply questionAt_defined.
  - intros i q Hq. split; [apply questionAt_position, Hq|].
    split; [eapply questionAt_prompt, Hq|].
    apply (questionAt_optional i q Hq).
  - intros f. destruct (questionAt_covers f) as (i & q & Hq & Hf).
    exists i, q. split; [exact Hq|]. split; [exact Hf|].
    intros j q' Hq' Hf'. eapply questionAt_field_inj; [exact Hq'|exact Hq|].
    congruence.
Qed.

(** * Trimming *)

Lemma trimStart_head s c :
  head (trimStart s) = Some c -> isWhiteSpace c = false.
Proof.
  induction s as [|d s IH]; cbn [trimStart]; [discriminate|].
  destruct (isWhiteSpace d) eqn:Hd; [exact IH|].
  cbn. intros [= <-]. exact Hd.
Qed.

Lemma trimStart_fixed s :
  (forall c, head s = Some c -> isWhiteSpace c = false) -> trimStart s = s.
Proof.
  destruct s as [|d s]; [reflexivity|]. intros Hd. cbn [trimStart].
  rewrite (Hd d eq_refl). reflexivity.
Qed.

Lemma trimStart_suffix s : trimStart s `suffix_of` s.
Proof.
  induction s as [|d s IH]; cbn [trimStart]; [reflexivity|].
  destruct (isWhiteSpace d); [apply suffix_cons_r, IH|reflexivity].
Qed.

Lemma trimStart_last s c :
  (forall d, last s = Some d -> isWhiteSpace d = false) ->
  last (trimStart s) = Some c -> isWhiteSpace c = false.
Proof.
  intros Hs Hc. apply Hs.
  destruct (trimStart_suffix s) as [p Hp]. rewrite Hp.
  apply last_app_Some. left. exact Hc.
Qed.

(** A string that neither starts nor ends with white space is its own
    trim. *)
Lemma trim_fixed s :
  (forall c, head s = Some c -> isWhiteSpace c = false) ->
  (forall c, last s = Some c -> isWhiteSpace c = false) ->
  trim s = s.
Proof.
  intros Hh Hl. unfold trim, trimEnd. rewrite (trimStart_fixed s Hh).
  rewrite trimStart_fixed; [apply reverse_involutive|].
  intros c. rewrite head_reverse. apply Hl.
Qed.

Lemma trim_head s c : head (trim s) = Some c -> isWhiteSpace c = false.
Proof.
  unfold trim, trimEnd. rewrite head_reverse. apply trimStart_last.
  intros d. rewrite last_reverse. apply trimStart_head.
Qed.

Lemma trim_last s c : last (trim s) = Some c -> isWhiteSpace c = false.
Proof.
  unfold trim, trimEnd. rewrite last_reverse. apply trimStart_head.
Qed.

Lemma trim_idempotent s : trim (trim s) = trim s.
Proof. apply trim_fixed; [apply trim_head|apply trim_last]. Qed.

(** * How a call changes one session *)

(** [answerQuestion] either leaves the store alone or stores an accepted
    value: the empty string or the trimmed answer, never the empty string
    for a required question. *)
Lemma answerQuestion_stored toLowerCase sessions sessionId answer :
  (answerQuestion toLowerCase sessions sessionId answer).2 = sessions
  \/ exists state q v,
       sessions !! sessionId = Some state
       /\ questionAt (step state - 1) = Some q
       /\ (answerQuestion toLowerCase sessions sessionId answer).2
          = <[sessionId := answered state q v]> sessions
       /\ (v = [] \/ v = trim answer)
       /\ (optional q = false -> v <> []).
Proof.
  unfold answerQuestion.
  destruct (sessions !! sessionId) as [state|] eqn:Hs; [|left; reflexivity].
  case_bool_decide; [left; reflexivity|].
  destruct (questionAt (step state - 1)) as [q|] eqn:Hq; [|left; reflexivity].
  destruct (optional q) eqn:Hopt; cbn [andb negb].
  - case_bool_decide.
    + right. exists state, q, []. rewrite storeAndAdvance_store.
      split; [reflexivity|]. split; [exact Hq|]. split; [reflexivity|].
      split; [left; reflexivity|congruence].
    + rewrite andb_false_r. right. exists state, q, (trim answer).
      rewrite storeAndAdvance_store.
      split; [reflexivity|]. split; [exact Hq|]. split; [reflexivity|].
      split; [right; reflexivity|congruence].
  - case_bool_decide as Hempty; cbn [andb]; [left; reflexivity|].
    right. exists state, q, (trim answer). rewrite storeAndAdvance_store.
    split; [reflexivity|]. split; [exact Hq|]. split; [reflexivity|].
    split; [right; reflexivity|]. intros _. exact Hempty.
Qed.

(** The entry of a session after a call: a new session is [created]; a
    session that was there is as before or [answered] with an accepted
    value. *)
Lemma handle_session toLowerCase sessions c sessionId s' :
  handle toLowerCase sessions c !! sessionId = Some s' ->
  match sessions !! sessionId with
  | Some s =>
      s' = s
      \/ exists q v,
           questionAt (step s - 1) = Some q
           /\ s' = answered s q v
           /\ trim v = v
           /\ (optional q = false -> v <> [])
  | None => exists now, s' = created now
  end.
Proof.
  intros Hs'.
  destruct c as [now id | id answer | id | id | now]; cbn [handle] in Hs'.
  - rewrite startSoulBuilder_store in Hs'.
    destruct (sessions !! id) eqn:Hid.
    + rewrite Hs'. left. reflexivity.
    + destruct (decide (id = sessionId)) as [->|Hne].
      * rewrite Hid. rewrite lookup_insert_eq in Hs'. exists now. congruence.
      * rewrite lookup_insert_ne in Hs' by exact Hne. rewrite Hs'.
        left. reflexivity.
  - destruct (answerQuestion_stored toLowerCase sessions id answer)
      as [Hsame | (state & q & v & Hst & Hq & Hins & Hv & Hreq)].
    + rewrite Hsame in Hs'. rewrite Hs'. left. reflexivity.
    + rewrite Hins in Hs'. destruct (decide (id = sessionId)) as [->|Hne].
      * rewrite Hst. rewrite lookup_insert_eq in Hs'. right. exists q, v.
        split; [exact Hq|]. split; [congruence|]. split; [|exact Hreq].
        destruct Hv as [->| ->]; [reflexivity|apply trim_idempotent].
      * rewrite lookup_insert_ne in Hs' by exact Hne. rewrite Hs'.
        left. reflexivity.
  - rewrite Hs'. left. reflexivity.
  - rewrite Hs'. left. reflexivity.
  - apply sweep_lookup in Hs' as [Hs' _]. rewrite Hs'. left. reflexivity.
Qed.

(** * Invariants of reachable stores *)

Lemma created_answersInOrder now : answersInOrder (created now).
Proof.
  intros i q Hq. apply questionAt_bounds in Hq. cbn [created step answers].
  split; [|lia]. intros [v Hv]. destruct (field q); discriminate.
Qed.

Lemma created_answersStored now : answersStored (created now).
Proof.
  intros i q v _ Hv. cbn [created answers] in Hv.
  destruct (field q); discriminate.
Qed.

Lemma answered_answersInOrder s q v :
  questionAt (step s - 1) = Some q ->
  answersInOrder s -> answersInOrder (answered s q v).
Proof.
  intros Hq Hs i q' Hq'. cbn [answered step answers].
  destruct (decide (field q' = field q)) as [Hf|Hf].
  - rewrite Hf, getAnswer_setAnswer.
    assert (i = step s - 1) by (eapply questionAt_field_inj; eauto).
    split; [lia|eauto].
  - rewrite getAnswer_setAnswer_ne by exact Hf. rewrite (Hs i q' Hq').
    split; [lia|]. intros Hlt.
    destruct (decide (i = step s - 1)) as [->|Hi]; [|lia].
    exfalso. apply Hf. congruence.
Qed.

Lemma answered_answersStored s q v :
  questionAt (step s - 1) = Some q ->
  trim v = v -> (optional q = false -> v <> []) ->
  answersStored s -> answersStored (answered s q v).
Proof.
  intros Hq Htrim Hreq Hs i q' w Hq' Hw. cbn [answered answers] in Hw.
  destruct (decide (field q' = field q)) as [Hf|Hf].
  - rewrite Hf, getAnswer_setAnswer in Hw. injection Hw as <-.
    assert (i = step s - 1) by (eapply questionAt_field_inj; eauto).
    subst i. assert (q' = q) by congruence. subst q'. auto.
  - rewrite getAnswer_setAnswer_ne in Hw by exact Hf. eapply Hs; eauto.
Qed.

Lemma run_invariant toLowerCase calls sessionId state :
  run toLowerCase calls !! sessionId = Some state ->
  answersInOrder state /\ answersStored state.
Proof.
  revert sessionId state.
  induction calls as [|c calls IH] using rev_ind; intros id s' Hs'.
  - unfold run in Hs'. cbn in Hs'. rewrite lookup_empty in Hs'. discriminate.
  - rewrite run_snoc in Hs'. apply handle_session in Hs'.
    destruct (run toLowerCase calls !! id) as [s|] eqn:Hs.
    + destruct (IH id s Hs) as [Hord Hst].
      destruct Hs' as [->|(q & v & Hq & -> & Htrim & Hreq)]; [auto|].
      split; [apply answered_answersInOrder|apply answered_answersStored];
        assumption.
    + destruct Hs' as [now ->].
      split; [apply created_answersInOrder|apply created_answersStored].
Qed.



(** X3. On every reachable store each stored answer is its own trim, and the
    stored answer of a required question is not empty. *)
Theorem reachable_answers_stored
    (toLowerCase : jsstring -> jsstring) (calls : list call)
    (sessionId : jsstring) (state : SoulState) :
  run toLowerCase calls !! sessionId = Some state ->
  forall i q v,
    questionAt i = Some q ->
    getAnswer (field q) (answers state) = Some v ->
    trim v = v /\ (optional q = false -> v <> []).
Proof. intros Hs. apply (run_invariant _ _ _ _ Hs). Qed.

Lemma reachable_answers_stored_witness :
  trim (lit "Aria") = lit "Aria" /\ (false = false -> lit "Aria" <> []).
Proof.
  apply (reachable_answers_stored toLowerCase_latin scenario (lit "s1") _
           scenario_state 0
           {| q_step := 1; field := Fname;
              question := lit "Wie soll dein Agent heißen?";
              optional := false |} (lit "Aria")).
  - reflexivity.
  - reflexivity.
Defined.

(** X4. On every reachable store a session is past the last question exactly
    when its signature field is set, and then all six fields are set, the
    five required ones to non-empty strings, so that [generateSoul] renders
    stored text in every slot of the document. *)
Theorem reachable_complete_answers
    (toLowerCase : jsstring -> jsstring) (calls : list call)
    (sessionId : jsstring) (state : SoulState) :
  run toLowerCase calls !! sessionId = Some state ->
  (step state > TOTAL_STEPS <-> is_Some (signature (answers state)))
  /\ (step state > TOTAL_STEPS ->
      exists n p c t b s,
        answers state
        = {| name := Some n; personality := Some p; coreValues := Some c;
             tone := Some t; backstory := Some b; signature := Some s |}
        /\ n <> [] /\ p <> [] /\ c <> [] /\ t <> [] /\ b <> []
        /\ (s <> [] -> trim s = s)).
Proof.
  intros Hs. destruct (run_invariant _ _ _ _ Hs) as [Hord Hst].
  assert (Hfield : forall f, step state > TOTAL_STEPS ->
            exists i q v, questionAt i = Some q /\ field q = f
                          /\ getAnswer f (answers state) = Some v).
  { intros f Hc. destruct (questionAt_covers f) as (i & q & Hq & Hf).
    pose proof (questionAt_bounds _ _ Hq) as Hb.
    destruct (proj2 (Hord i q Hq)) as [v Hv]; [lia|].
    exists i, q, v. rewrite <- Hf. auto. }
  split.
  - assert (Hq : questionAt 5 = Some
                   {| q_step := 6; field := Fsignature;
                      question := lit "Ein typischer Erkennungs-Satz deines Agenten? (oder " ++ dq
                                  ++ lit "skip" ++ dq ++ lit " zum Überspringen)";
                      optional := true |}) by reflexivity.
    pose proof (Hord 5 _ Hq) as Hsig. cbn [field getAnswer] in Hsig.
    rewrite Hsig. unfold TOTAL_STEPS. cbn. lia.
  - intros Hc.
    destruct (Hfield Fname Hc) as (i1 & q1 & n & Hq1 & Hf1 & Hn).
    destruct (Hfield Fpersonality Hc) as (i2 & q2 & p & Hq2 & Hf2 & Hp).
    destruct (Hfield FcoreValues Hc) as (i3 & q3 & c & Hq3 & Hf3 & Hcv).
    destruct (Hfield Ftone Hc) as (i4 & q4 & t & Hq4 & Hf4 & Ht).
    destruct (Hfield Fbackstory Hc) as (i5 & q5 & b & Hq5 & Hf5 & Hb).
    destruct (Hfield Fsignature Hc) as (i6 & q6 & s & Hq6 & Hf6 & Hsg).
    exists n, p, c, t, b, s.
    assert (Hreq : forall i q v, questionAt i = Some q ->
              field q <> Fsignature ->
              getAnswer (field q) (answers state) = Some v -> v <> []).
    { intros i q v Hq Hne Hv. apply (Hst i q v Hq Hv).
      destruct (optional q) eqn:Hopt; [|reflexivity].
      exfalso. apply Hne. apply (questionAt_optional i q Hq). exact Hopt. }
    split.
    { destruct (answers state) as [an ap ac at_ ab asg].
      cbn [getAnswer name personality coreValues tone backstory signature] in *.
      congruence. }
    split; [apply (Hreq i1 q1 n Hq1); [rewrite Hf1; discriminate|rewrite Hf1; exact Hn]|].
    split; [apply (Hreq i2 q2 p Hq2); [rewrite Hf2; discriminate|rewrite Hf2; exact Hp]|].
    split; [apply (Hreq i3 q3 c Hq3); [rewrite Hf3; discriminate|rewrite Hf3; exact Hcv]|].
    split; [apply (Hreq i4 q4 t Hq4); [rewrite Hf4; discriminate|rewrite Hf4; exact Ht]|].
    split; [apply (Hreq i5 q5 b Hq5); [rewrite Hf5; discriminate|rewrite Hf5; exact Hb]|].
    intros _. apply (Hst i6 q6 s Hq6). rewrite Hf6. exact Hsg.
Qed.

Lemma reachable_complete_answers_witness :
  7 > TOTAL_STEPS <-> is_Some (Some ([] : jsstring)).
Proof.
  apply (reachable_complete_answers toLowerCase_latin scenario (lit "s1") _
           scenario_state).
Defined.

(** X5. On every reachable store a field that is set keeps its value across
    every call, for as long as the session stays in the store: an answer is
    written once and never overwritten. *)
Theorem answers_set_once
    (toLowerCase : jsstring -> jsstring) (calls : list call) (c : call)
    (sessionId : jsstring) (s s' : SoulState) (f : Field) (v : jsstring) :
  run toLowerCase calls !! sessionId = Some s ->
  run toLowerCase (calls ++ [c]) !! sessionId = Some s' ->
  getAnswer f (answers s) = Some v ->
  getAnswer f (answers s') = Some v.
Proof.
  intros Hs Hs' Hv. rewrite run_snoc in Hs'. apply handle_session in Hs'.
  rewrite Hs in Hs'.
  destruct Hs' as [->|(q & w & Hq & -> & _)]; [exact Hv|].
  cbn [answered answers]. rewrite getAnswer_setAnswer_ne; [exact Hv|].
  intros ->. destruct (run_invariant _ _ _ _ Hs) as [Hord _].
  assert (Hlt : step s - 1 + 1 < step s)
    by (apply (Hord _ q Hq); eauto).
  lia.
Qed.

Lemma answers_set_once_witness :
  getAnswer Fname (answers (answered
    {| step := 6;
       answers := {| name := Some (lit "Aria");
                     personality := Some (lit "warm, direkt, neugierig");
                     coreValues := Some (lit "Ehrlichkeit, Geduld");
                     tone := Some (lit "casual");
                     backstory := Some (lit "Aus dem Norden.");
                     signature := None |};
       createdAt := 1000 |}
    {| q_step := 6; field := Fsignature; question := []; optional := true |}
    [])) = Some (lit "Aria").
Proof.
  apply (answers_set_once toLowerCase_latin progress
           (answer_question (lit "s1") (lit " Skip ")) (lit "s1")
           {| step := 6;
              answers := {| name := Some (lit "Aria");
                            personality := Some (lit "warm, direkt, neugierig");
                            coreValues := Some (lit "Ehrlichkeit, Geduld");
                            tone := Some (lit "casual");
                            backstory := Some (lit "Aus dem Norden.");
                            signature := None |};
              createdAt := 1000 |}).
  - vm_compute. reflexivity.
  - vm_compute. reflexivity.
  - reflexivity.
Defined.

(** * Expiry *)

Lemma expired_iff now state :
  expired now state <-> now > createdAt state + 3600000.
Proof. unfold expired, SESSION_EXPIRY_MS. lia. Qed.

(** X6. A sweep at [now] evicts a session exactly when [now] is more than an
    hour (3600000 ms) past its creation, the hour itself being kept. An
    evicted identifier is then an unknown one: the three tools that need a
    session fail with the no-session result and [startSoulBuilder] begins a
    new session at step 1. A session that is not expired is kept as it
    is. *)
Theorem sweep_session
    (toLowerCase : jsstring -> jsstring) (now : Z)
    (sessions : gmap jsstring SoulState) (sessionId : jsstring)
    (state : SoulState) :
  sessions !! sessionId = Some state ->
  (now <= createdAt state + 3600000 ->
   sweep now sessions !! sessionId = Some state)
  /\ (now > createdAt state + 3600000 ->
      sweep now sessions !! sessionId = None
      /\ (forall answer,
            answerQuestion toLowerCase (sweep now sessions) sessionId answer
            = (Return noSession, sweep now sessions))
      /\ generateSoul (sweep now sessions) sessionId = noSession
      /\ exportSoul (sweep now sessions) sessionId = noSession
      /\ forall now', exists r,
           startSoulBuilder now' (sweep now sessions) sessionId
           = (Return r, <[sessionId := created now']> (sweep now sessions))
           /\ currentStep r = Some 1).
Proof.
  intros Hs. split.
  - intros Hle. apply sweep_lookup. split; [exact Hs|].
    rewrite expired_iff. lia.
  - intros Hgt.
    assert (Hnone : sweep now sessions !! sessionId = None).
    { destruct (sweep now sessions !! sessionId) as [x|] eqn:Hx; [|reflexivity].
      apply sweep_lookup in Hx as [Hx Hnot]. exfalso. apply Hnot.
      assert (x = state) by congruence. subst. apply expired_iff. exact Hgt. }
    split; [exact Hnone|].
    split; [intros answer; unfold answerQuestion; rewrite Hnone; reflexivity|].
    split; [unfold generateSoul; rewrite Hnone; reflexivity|].
    split; [unfold exportSoul; rewrite Hnone; reflexivity|].
    intros now'. unfold startSoulBuilder. rewrite Hnone.
    destruct (questionAt 0) as [q|] eqn:Hq; [|discriminate].
    eexists. split; reflexivity.
Qed.

Lemma sweep_session_witness :
  sweep 3601000 store7 !! lit "s1"
  = Some {| step := 7;
            answers := {| name := Some (lit "Aria");
                          personality := Some (lit "warm, direkt, neugierig");
                          coreValues := Some (lit "Ehrlichkeit, Geduld");
                          tone := Some (lit "casual");
                          backstory := Some (lit "Aus dem Norden.");
                          signature := Some [] |};
            createdAt := 1000 |}
  /\ sweep 3601001 store7 !! lit "s1" = None.
Proof.
  split.
  - apply (sweep_session toLowerCase_latin 3601000 store7 (lit "s1") _
             scenario_state).
    vm_compute. discriminate.
  - apply (sweep_session toLowerCase_latin 3601001 store7 (lit "s1") _
             scenario_state).
    reflexivity.
Defined.

(** X7. A later sweep subsumes an earlier one, in either order, and a sweep
    repeated at the same time changes nothing. *)
Theorem sweep_sweep
    (now now' : Z) (sessions : gmap jsstring SoulState) :
  now <= now' ->
  sweep now' (sweep now sessions) = sweep now' sessions
  /\ sweep now (sweep now' sessions) = sweep now' sessions
  /\ sweep now (sweep now sessions) = sweep now sessions.
Proof.
  intros Hle.
  split; [|split]; apply map_eq; intros i; apply option_eq; intros s;
    rewrite !sweep_lookup, !expired_iff; intuition lia.
Qed.

Lemma sweep_sweep_witness :
  sweep 3601001 (sweep 2000 store7) = sweep 3601001 store7.
Proof. apply (sweep_sweep 2000 3601001 store7). lia. Defined.

(** A call other than the sweep keeps every session and its creation
    time. *)
Lemma handle_keeps toLowerCase sessions c sessionId s :
  isCleanup c = false ->
  sessions !! sessionId = Some s ->
  exists s', handle toLowerCase sessions c !! sessionId = Some s'
             /\ createdAt s' = createdAt s.
Proof.
  intros Hc Hs.
  destruct c as [now id | id answer | id | id | now]; cbn [handle];
    [| | eauto | eauto | discriminate].
  - rewrite startSoulBuilder_store.
    destruct (sessions !! id) eqn:Hid; [eauto|].
    destruct (decide (id = sessionId)) as [->|Hne]; [congruence|].
    rewrite lookup_insert_ne by exact Hne. eauto.
  - destruct (answerQuestion_store toLowerCase sessions id answer)
      as [-> | (state & q & v & Hst & _ & ->)]; [eauto|].
    destruct (decide (id = sessionId)) as [->|Hne].
    + rewrite lookup_insert_eq. eexists. split; [reflexivity|].
      cbn [answered createdAt]. congruence.
    + rewrite lookup_insert_ne by exact Hne. eauto.
Qed.

(** X8. Expiry counts from creation: after any sequence of tool calls, however
    many answers they give, the session is still stored with its creation
    time, and a sweep at [now] keeps it exactly when [now] is at most an
    hour past that time. *)
Theorem expiry_from_creation
    (toLowerCase : jsstring -> jsstring) (calls : list call)
    (sessions : gmap jsstring SoulState) (sessionId : jsstring)
    (state : SoulState) :
  sessions !! sessionId = Some state ->
  Forall (fun c => isCleanup c = false) calls ->
  exists state',
    foldl (handle toLowerCase) sessions calls !! sessionId = Some state'
    /\ createdAt state' = createdAt state
    /\ forall now,
         is_Some (sweep now (foldl (handle toLowerCase) sessions calls)
                  !! sessionId)
         <-> now <= createdAt state + 3600000.
Proof.
  intros Hs Hcalls.
  assert (Hkeep : exists state',
            foldl (handle toLowerCase) sessions calls !! sessionId = Some state'
            /\ createdAt state' = createdAt state).
  { revert sessions state Hs.
    induction Hcalls as [|c calls Hc _ IH]; intros sessions state Hs.
    - exists state. split; [exact Hs|reflexivity].
    - cbn [foldl].
      destruct (handle_keeps toLowerCase sessions c sessionId state Hc Hs)
        as (s1 & Hs1 & Heq1).
      destruct (IH _ _ Hs1) as (s2 & Hs2 & Heq2).
      exists s2. split; [exact Hs2|congruence]. }
  destruct Hkeep as (state' & Hs' & Heq).
  exists state'. split; [exact Hs'|]. split; [exact Heq|].
  intros now. split.
  - intros [x Hx]. apply sweep_lookup in Hx as [Hx Hnot].
    assert (x = state') by congruence. subst.
    rewrite expired_iff in Hnot. lia.
  - intros Hle. exists state'. apply sweep_lookup. split; [exact Hs'|].
    rewrite expired_iff. lia.
Qed.

Lemma expiry_from_creation_witness :
  exists state',
    foldl (handle toLowerCase_latin) store6
      [answer_question (lit "s1") (lit " Skip ")] !! lit "s1" = Some state'
    /\ createdAt state' = createdAt state6
    /\ forall now,
         is_Some (sweep now
                    (foldl (handle toLowerCase_latin) store6
                       [answer_question (lit "s1") (lit " Skip ")])
                  !! lit "s1")
         <-> now <= createdAt state6 + 3600000.
Proof.
  apply (expiry_from_creation toLowerCase_latin
           [answer_question (lit "s1") (lit " Skip ")]
           store6 (lit "s1") state6).
  - vm_compute. reflexivity.
  - repeat constructor.
Defined.

(** * Sessions side by side *)

(** X9. A tool call leaves every session other than the one it names as it
    was. *)
Theorem other_sessions_untouched
    (toLowerCase : jsstring -> jsstring)
    (sessions : gmap jsstring SoulState) (c : call) (other : jsstring) :
  isCleanup c = false ->
  target c <> Some other ->
  handle toLowerCase sessions c !! other = sessions !! other.
Proof.
  intros Hc Hne.
  destruct c as [now id | id answer | id | id | now]; cbn [handle target] in *;
    [| |reflexivity|reflexivity|discriminate].
  - rewrite startSoulBuilder_store. destruct (sessions !! id); [reflexivity|].
    apply lookup_insert_ne. congruence.
  - destruct (answerQuestion_store toLowerCase sessions id answer)
      as [-> | (state & q & v & _ & _ & ->)]; [reflexivity|].
    apply lookup_insert_ne. congruence.
Qed.

Lemma other_sessions_untouched_witness :
  handle toLowerCase_latin store6 (answer_question (lit "s2") (lit "Bo"))
    !! lit "s1"
  = store6 !! lit "s1".
Proof.
  apply (other_sessions_untouched toLowerCase_latin store6
           (answer_question (lit "s2") (lit "Bo")) (lit "s1")).
  - reflexivity.
  - vm_compute. discriminate.
Defined.

Lemma handle_size toLowerCase sessions c :
  (size (handle toLowerCase sessions c)
   <= (if isStart c then S (size sessions) else size sessions))%nat.
Proof.
  destruct c as [now id | id answer | id | id | now]; cbn [handle isStart];
    [| |reflexivity|reflexivity|].
  - rewrite startSoulBuilder_store.
    destruct (sessions !! id) eqn:Hid; [lia|].
    rewrite map_size_insert_None by exact Hid. lia.
  - destruct (answerQuestion_store toLowerCase sessions id answer)
      as [-> | (state & q & v & Hst & _ & ->)]; [reflexivity|].
    rewrite map_size_insert_Some by eauto. lia.
  - apply map_subseteq_size, map_filter_subseteq.
Qed.

(** X10. The number of stored sessions grows by one on a start for a new
    identifier, stays the same on every other tool call, and does not grow
    on a sweep. *)
Theorem session_count_step
    (toLowerCase : jsstring -> jsstring)
    (sessions : gmap jsstring SoulState) (c : call) :
  match c with
  | start_soul_builder _ sessionId =>
      getActiveSessionCount (handle toLowerCase sessions c)
      = match getSessionState sessions sessionId with
        | Some _ => getActiveSessionCount sessions
        | None => S (getActiveSessionCount sessions)
        end
  | cleanup _ =>
      (getActiveSessionCount (handle toLowerCase sessions c)
       <= getActiveSessionCount sessions)%nat
  | _ =>
      getActiveSessionCount (handle toLowerCase sessions c)
      = getActiveSessionCount sessions
  end.
Proof.
  unfold getActiveSessionCount, getSessionState.
  destruct c as [now id | id answer | id | id | now]; cbn [handle];
    [| |reflexivity|reflexivity|].
  - rewrite startSoulBuilder_store.
    destruct (sessions !! id) eqn:Hid; [reflexivity|].
    apply map_size_insert_None, Hid.
  - destruct (answerQuestion_store toLowerCase sessions id answer)
      as [-> | (state & q & v & Hst & _ & ->)]; [reflexivity|].
    apply map_size_insert_Some. eauto.
  - apply map_subseteq_size, map_filter_subseteq.
Qed.

(** X11. The store of a process never holds more sessions than there were
    [start_soul_builder] calls. *)
Theorem session_count_bounded
    (toLowerCase : jsstring -> jsstring) (calls : list call) :
  (getActiveSessionCount (run toLowerCase calls)
   <= length (filter (fun c => isStart c = true) calls))%nat.
Proof.
  induction calls as [|c calls IH] using rev_ind.
  - unfold run, getActiveSessionCount. cbn. rewrite map_size_empty. lia.
  - rewrite run_snoc, filter_app, length_app.
    pose proof (handle_size toLowerCase (run toLowerCase calls) c) as Hstep.
    unfold getActiveSessionCount in *. rewrite filter_cons, filter_nil.
    destruct (decide (isStart c = true)) as [Hc|Hc]; cbn [length].
    + rewrite Hc in Hstep. lia.
    + apply not_true_is_false in Hc. rewrite Hc in Hstep. lia.
Qed.

(** * Answering through to completion *)

Lemma questionAt_past i : i >= TOTAL_STEPS -> questionAt i = None.
Proof.
  intros Hi. destruct (questionAt i) as [q|] eqn:Hq; [|reflexivity].
  apply questionAt_bounds in Hq. lia.
Qed.




(** X13. An answer to an optional question that is empty once trimmed has the
    effect of a skip: the same report and the same store, with the empty
    string stored and the step advanced. *)
Theorem optional_empty_is_skip
    (toLowerCase : jsstring -> jsstring)
    (sessions : gmap jsstring SoulState) (sessionId skip empty : jsstring)
    (state : SoulState) (q : SoulQuestion) :
  sessions !! sessionId = Some state ->
  questionAt (step state - 1) = Some q ->
  optional q = true ->
  toLowerCase (trim skip) = lit "skip" ->
  trim empty = [] ->
  answerQuestion toLowerCase sessions sessionId empty
  = answerQuestion toLowerCase sessions sessionId skip
  /\ (answerQuestion toLowerCase sessions sessionId empty).2
     = <[sessionId := answered state q []]> sessions.
Proof.
  intros Hs Hq Hopt Hskip Hempty.
  assert (Hstep : ~ step state > TOTAL_STEPS)
    by (apply questionAt_bounds in Hq; lia).
  assert (He : answerQuestion toLowerCase sessions sessionId empty
               = storeAndAdvance sessions sessionId state q []).
  { unfold answerQuestion. rewrite Hs.
    rewrite bool_decide_eq_false_2 by exact Hstep. rewrite Hq, Hopt, Hempty.
    cbn [andb negb]. rewrite andb_false_r.
    destruct (bool_decide _); reflexivity. }
  assert (Hk : answerQuestion toLowerCase sessions sessionId skip
               = storeAndAdvance sessions sessionId state q []).
  { unfold answerQuestion. rewrite Hs.
    rewrite bool_decide_eq_false_2 by exact Hstep. rewrite Hq, Hopt.
    rewrite (bool_decide_eq_true_2 _ Hskip). reflexivity. }
  rewrite He, Hk. split; [reflexivity|apply storeAndAdvance_store].
Qed.

Lemma optional_empty_is_skip_witness :
  answerQuestion toLowerCase_latin store6 (lit "s1") (lit "   ")
  = answerQuestion toLowerCase_latin store6 (lit "s1") (lit "SKIP").
Proof.
  apply (optional_empty_is_skip toLowerCase_latin store6 (lit "s1")
           (lit "SKIP") (lit "   ") state6
           {| q_step := 6; field := Fsignature;
              question := lit "Ein typischer Erkennungs-Satz deines Agenten? (oder " ++ dq
                          ++ lit "skip" ++ dq ++ lit " zum Überspringen)";
              optional := true |}).
  - vm_compute. reflexivity.
  - reflexivity.
  - reflexivity.
  - vm_compute. reflexivity.
  - vm_compute. reflexivity.
Defined.

(** * Reports and the store *)

(** X14. A second [startSoulBuilder] for the same identifier changes nothing:
    the store is the one the first call left, and the second report shows
    the same step, question, total and completion flag as the first. *)
Theorem startSoulBuilder_twice
    (now now' : Z) (sessions : gmap jsstring SoulState)
    (sessionId : jsstring) :
  exists r1 r2,
    (startSoulBuilder now sessions sessionId).1 = Return r1
    /\ startSoulBuilder now' (startSoulBuilder now sessions sessionId).2
         sessionId
       = (Return r2, (startSoulBuilder now sessions sessionId).2)
    /\ currentStep r2 = currentStep r1
    /\ nextQuestion r2 = nextQuestion r1
    /\ totalSteps r2 = totalSteps r1
    /\ isComplete r2 = isComplete r1.
Proof.
  rewrite startSoulBuilder_store. unfold startSoulBuilder.
  destruct (sessions !! sessionId) as [existing|] eqn:Hs.
  - rewrite Hs. eexists _, _. split; [reflexivity|]. split; [reflexivity|].
    repeat split.
  - rewrite lookup_insert_eq.
    destruct (questionAt 0) as [q|] eqn:Hq; [|discriminate].
    eexists _, _. split; [reflexivity|]. split; [reflexivity|].
    cbn [currentStep nextQuestion totalSteps isComplete created step].
    change (1 - 1) with 0. rewrite Hq. repeat split.
Qed.

Lemma storeAndAdvance_no_document sessions sessionId state q v r :
  (storeAndAdvance sessions sessionId state q v).1 = Return r ->
  soulMd r = None.
Proof.
  unfold storeAndAdvance. case_bool_decide.
  - intros [= <-]. reflexivity.
  - destruct (questionAt _); [|discriminate]. intros [= <-]. reflexivity.
Qed.

Lemma report_of_store
    (toLowerCase : jsstring -> jsstring) (now : Z)
    (sessions sessions' : gmap jsstring SoulState)
    (sessionId answer : jsstring) (r : ToolResult) :
  startSoulBuilder now sessions sessionId = (Return r, sessions')
  \/ (answerQuestion toLowerCase sessions sessionId answer
      = (Return r, sessions')
      /\ success r = true) ->
  exists state',
    sessions' !! sessionId = Some state'
    /\ success r = true
    /\ currentStep r = Some (step state')
    /\ totalSteps r = Some TOTAL_STEPS
    /\ isComplete r = Some (bool_decide (step state' > TOTAL_STEPS))
    /\ nextQuestion r = question <$> questionAt (step state' - 1)
    /\ soulMd r = None.
Proof.
  intros [Hstart | [Hanswer Hsucc]].
  - unfold startSoulBuilder in Hstart.
    destruct (sessions !! sessionId) as [existing|] eqn:Hs.
    + injection Hstart as <- <-. exists existing. split; [exact Hs|].
      repeat split.
    + destruct (questionAt 0) as [q|] eqn:Hq; [|discriminate].
      injection Hstart as <- <-. exists (created now).
      split; [apply lookup_insert_eq|].
      cbn [success currentStep totalSteps isComplete nextQuestion created step].
      change (1 - 1) with 0. rewrite Hq. repeat split.
  - unfold answerQuestion in Hanswer.
    destruct (sessions !! sessionId) as [state|] eqn:Hs.
    2: { injection Hanswer as <- <-. discriminate. }
    case_bool_decide as Hc.
    + injection Hanswer as <- <-. exists state. split; [exact Hs|].
      cbn [success currentStep totalSteps isComplete nextQuestion].
      rewrite (bool_decide_eq_true_2 _ Hc).
      rewrite questionAt_past by lia. repeat split.
    + destruct (questionAt (step state - 1)) as [q|] eqn:Hq; [|discriminate].
      assert (Hadv : forall v,
                storeAndAdvance sessions sessionId state q v
                = (Return r, sessions') ->
                exists state',
                  sessions' !! sessionId = Some state' /\ success r = true
                  /\ currentStep r = Some (step state')
                  /\ totalSteps r = Some TOTAL_STEPS
                  /\ isComplete r = Some (bool_decide (step state' > TOTAL_STEPS))
                  /\ nextQuestion r = question <$> questionAt (step state' - 1)
                  /\ soulMd r = None).
      { intros v Hv.
        destruct (storeAndAdvance_returns sessions sessionId state q v Hq)
          as (r' & Hr' & Hs' & Hcur & Htot & Hcomp & Hnext).
        pose proof (storeAndAdvance_no_document sessions sessionId state q v r'
                      ltac:(rewrite Hr'; reflexivity)) as Hdoc.
        rewrite Hr' in Hv. injection Hv as <- <-.
        exists (answered state q v). split; [apply lookup_insert_eq|].
        cbn [answered step].
        replace (step state + 1 - 1) with (step state) by lia. auto 10. }
      destruct (optional q && _); [eapply Hadv, Hanswer|].
      destruct (bool_decide _ && _); [|eapply Hadv, Hanswer].
      injection Hanswer as <- <-. discriminate.
Qed.

(** X15. A report of [startSoulBuilder], or a successful report of
    [answerQuestion], describes the session as the returned store holds it:
    its step, the total, whether it is past the last question, and the
    prompt of the question at its step, if there is one. *)
Theorem report_matches_store
    (toLowerCase : jsstring -> jsstring) (now : Z)
    (sessions sessions' : gmap jsstring SoulState)
    (sessionId answer : jsstring) (r : ToolResult) :
  startSoulBuilder now sessions sessionId = (Return r, sessions')
  \/ (answerQuestion toLowerCase sessions sessionId answer
      = (Return r, sessions')
      /\ success r = true) ->
  exists state',
    sessions' !! sessionId = Some state'
    /\ success r = true
    /\ currentStep r = Some (step state')
    /\ totalSteps r = Some TOTAL_STEPS
    /\ isComplete r = Some (bool_decide (step state' > TOTAL_STEPS))
    /\ nextQuestion r = question <$> questionAt (step state' - 1).
Proof.
  intros Hcall.
  destruct (report_of_store toLowerCase now sessions sessions' sessionId answer
              r Hcall) as (state' & H1 & H2 & H3 & H4 & H5 & H6 & _).
  exists state'. auto 10.
Qed.

Lemma report_matches_store_witness :
  let out := startSoulBuilder 2000 store6 (lit "s1") in
  exists state',
    out.2 !! lit "s1" = Some state'
    /\ currentStep (match out.1 with Return r => r | Throw => noSession end)
       = Some (step state').
Proof.
  intros out.
  destruct (report_matches_store toLowerCase_latin 2000 store6 out.2 (lit "s1")
              [] (match out.1 with Return r => r | Throw => noSession end))
    as (state' & Hs' & _ & Hc & _).
  - left. vm_compute. reflexivity.
  - exists state'. split; [exact Hs'|exact Hc].
Defined.

(** * The replies of the handler *)

(** A failure of [answerQuestion] carries no question, no document and no
    change of the store. *)
Lemma answerQuestion_failure toLowerCase sessions sessionId answer r :
  (answerQuestion toLowerCase sessions sessionId answer).1 = Return r ->
  success r = false ->
  nextQuestion r = None /\ soulMd r = None.
Proof.
  unfold answerQuestion.
  destruct (sessions !! sessionId) as [state|]; [|intros [= <-]; auto].
  case_bool_decide; [intros [= <-]; discriminate|].
  destruct (questionAt (step state - 1)) as [q|] eqn:Hq; [|discriminate].
  assert (Hadv : forall v,
            (storeAndAdvance sessions sessionId state q v).1 = Return r ->
            success r = false -> nextQuestion r = None /\ soulMd r = None).
  { intros v Hv Hf.
    destruct (storeAndAdvance_returns sessions sessionId state q v Hq)
      as (r' & Hr' & Hs' & _).
    rewrite Hr' in Hv. injection Hv as <-. congruence. }
  destruct (optional q && _); [apply Hadv|].
  destruct (bool_decide _ && _); [|apply Hadv].
  intros [= <-]. auto.
Qed.

Lemma generateSoulMd_truthy answers :
  truthy (Some (generateSoulMd answers)) = true.
Proof. reflexivity. Qed.

(** X16. What a tool returns with a next question is a report on a session at
    some step [k] with the prompt of question [k]; the reply then consists
    of the message and the line [**Frage k/6:**] with that prompt, with the
    counters printed as numbers. *)
Theorem reply_question_line
    (toLowerCase : jsstring -> jsstring) (now : Z)
    (sessions : gmap jsstring SoulState) (sessionId answer : jsstring)
    (r : ToolResult) :
  returnedBy toLowerCase now sessions sessionId answer r ->
  truthy (nextQuestion r) = true ->
  exists k q,
    currentStep r = Some k
    /\ totalSteps r = Some TOTAL_STEPS
    /\ 1 <= k <= TOTAL_STEPS
    /\ questionAt (k - 1) = Some q
    /\ nextQuestion r = Some (question q)
    /\ responseText r
       = message r ++ nl ++ nl ++ lit "**Frage " ++ ofNumber k ++ lit "/"
         ++ ofNumber TOTAL_STEPS ++ lit ":** " ++ question q.
Proof.
  intros Hret Hnext.
  assert (Hrep : exists state',
            currentStep r = Some (step state')
            /\ totalSteps r = Some TOTAL_STEPS
            /\ nextQuestion r = question <$> questionAt (step state' - 1)
            /\ soulMd r = None).
  { destruct Hret as [Hstart | [Hanswer | [-> | ->]]].
    - destruct (startSoulBuilder now sessions sessionId) as [c m] eqn:Hcall.
      cbn in Hstart. subst c.
      destruct (report_of_store toLowerCase now sessions m sessionId answer r)
        as (s' & _ & _ & H3 & H4 & _ & H6 & H7); [left; exact Hcall|].
      exists s'. auto.
    - destruct (success r) eqn:Hsucc.
      + destruct (answerQuestion toLowerCase sessions sessionId answer)
          as [c m] eqn:Hcall.
        cbn in Hanswer. subst c.
        destruct (report_of_store toLowerCase now sessions m sessionId answer r)
          as (s' & _ & _ & H3 & H4 & _ & H6 & H7); [right; auto|].
        exists s'. auto.
      + destruct (answerQuestion_failure _ _ _ _ _ Hanswer Hsucc) as [Hn _].
        rewrite Hn in Hnext. discriminate.
    - exfalso. revert Hnext. unfold generateSoul.
      destruct (sessions !! sessionId); [|discriminate].
      case_bool_decide; discriminate.
    - exfalso. revert Hnext. unfold exportSoul.
      destruct (sessions !! sessionId); [|discriminate].
      case_bool_decide; discriminate. }
  destruct Hrep as (s' & Hcur & Htot & Hq & Hdoc).
  destruct (questionAt (step s' - 1)) as [q|] eqn:Hqs;
    [|rewrite Hq in Hnext; discriminate].
  exists (step s'), q. pose proof (questionAt_bounds _ _ Hqs) as Hb.
  split; [exact Hcur|]. split; [exact Htot|]. split; [lia|].
  split; [exact Hqs|]. split; [exact Hq|].
  unfold responseText. rewrite Hnext, Hdoc, Hcur, Htot, Hq. reflexivity.
Qed.

Lemma reply_question_line_witness :
  exists k q,
    currentStep (match (startSoulBuilder 2000 store6 (lit "s1")).1 with
                 | Return r => r
                 | Throw => noSession
                 end) = Some k
    /\ 1 <= k <= TOTAL_STEPS
    /\ questionAt (k - 1) = Some q.
Proof.
  destruct (reply_question_line toLowerCase_latin 2000 store6 (lit "s1") []
              (match (startSoulBuilder 2000 store6 (lit "s1")).1 with
               | Return r => r
               | Throw => noSession
               end))
    as (k & q & Hk & _ & Hb & Hq & _).
  - left. vm_compute. reflexivity.
  - vm_compute. reflexivity.
  - exists k, q. split; [exact Hk|]. split; [exact Hb|exact Hq].
Defined.

(** X17. The reply to a failure of any tool is its message alone: a failure
    never shows a question line or a document. *)
Theorem reply_failure
    (toLowerCase : jsstring -> jsstring) (now : Z)
    (sessions : gmap jsstring SoulState) (sessionId answer : jsstring)
    (r : ToolResult) :
  returnedBy toLowerCase now sessions sessionId answer r ->
  success r = false ->
  nextQuestion r = None /\ soulMd r = None /\ responseText r = message r.
Proof.
  intros Hret Hfail.
  assert (Hnone : nextQuestion r = None /\ soulMd r = None).
  { destruct Hret as [Hstart | [Hanswer | [-> | ->]]].
    - exfalso. revert Hstart Hfail. unfold startSoulBuilder.
      destruct (sessions !! sessionId); [intros [= <-]; discriminate|].
      destruct (questionAt 0); [intros [= <-]; discriminate|discriminate].
    - eapply answerQuestion_failure; eassumption.
    - revert Hfail. unfold generateSoul.
      destruct (sessions !! sessionId); [|auto].
      case_bool_decide; [auto|discriminate].
    - revert Hfail. unfold exportSoul.
      destruct (sessions !! sessionId); [|auto].
      case_bool_decide; [auto|discriminate]. }
  destruct Hnone as [Hn Hd]. split; [exact Hn|]. split; [exact Hd|].
  unfold responseText. rewrite Hn, Hd. reflexivity.
Qed.

Lemma reply_failure_witness :
  responseText (exportSoul store6 (lit "s1"))
  = message (exportSoul store6 (lit "s1")).
Proof.
  apply (reply_failure toLowerCase_latin 0 store6 (lit "s1") []
           (exportSoul store6 (lit "s1"))).
  - right. right. right. reflexivity.
  - vm_compute. reflexivity.
Defined.

(** X18. For a complete session the replies to [generate_soul] and
    [export_soul] are each the tool's message, a rule and the document, the
    same document in both. *)
Theorem reply_document
    (sessions : gmap jsstring SoulState) (sessionId : jsstring)
    (state : SoulState) :
  sessions !! sessionId = Some state ->
  step state > TOTAL_STEPS ->
  responseText (generateSoul sessions sessionId)
  = lit "SOUL.md für " ++ dq ++ tpl (name (answers state)) ++ dq
    ++ lit " erfolgreich generiert!"
    ++ nl ++ nl ++ lit "---" ++ nl ++ nl ++ generateSoulMd (answers state)
  /\ responseText (exportSoul sessions sessionId)
     = lit "Hier ist dein SOUL.md zum Kopieren:"
       ++ nl ++ nl ++ lit "---" ++ nl ++ nl ++ generateSoulMd (answers state).
Proof.
  intros Hs Hstep. unfold generateSoul, exportSoul. rewrite Hs.
  rewrite !bool_decide_eq_false_2 by lia. unfold responseText.
  cbn [nextQuestion soulMd message].
  rewrite !generateSoulMd_truthy. cbn [truthy tpl]. rewrite <- !app_assoc. split; reflexivity.
Qed.

Lemma reply_document_witness :
  responseText (exportSoul store7 (lit "s1"))
  = lit "Hier ist dein SOUL.md zum Kopieren:"
    ++ nl ++ nl ++ lit "---" ++ nl ++ nl
    ++ generateSoulMd {| name := Some (lit "Aria");
                         personality := Some (lit "warm, direkt, neugierig");
                         coreValues := Some (lit "Ehrlichkeit, Geduld");
                         tone := Some (lit "casual");
                         backstory := Some (lit "Aus dem Norden.");
                         signature := Some [] |}.
Proof.
  apply (reply_document store7 (lit "s1") _ scenario_state).
  reflexivity.
Defined.

(** X19. On every reachable store the handler never takes its [catch] branch:
    the reply is not flagged as an error and does not depend on the
    engine's error text. The store after the call is that of the call
    sequence extended by the tool call, and is unchanged for
    [generate_soul], [export_soul] and unknown tool names. *)
Theorem callTool_never_errors
    (toLowerCase : jsstring -> jsstring) (errorMessage : jsstring) (now : Z)
    (calls : list call) (name session_id answer : jsstring) :
  let sessions := run toLowerCase calls in
  let out := callTool toLowerCase errorMessage now sessions name session_id
               answer in
  isError out.1 = None
  /\ (forall other,
        callTool toLowerCase other now sessions name session_id answer = out)
  /\ out.2
     = (if bool_decide (name = lit "start_soul_builder")
        then run toLowerCase (calls ++ [start_soul_builder now session_id])
        else if bool_decide (name = lit "answer_question")
        then run toLowerCase (calls ++ [answer_question session_id answer])
        else sessions).
Proof.
  cbn zeta. unfold callTool.
  destruct (startSoulBuilder_returns now (run toLowerCase calls) session_id)
    as [r1 Hr1].
  destruct (answerQuestion_returns toLowerCase calls session_id answer)
    as [r2 Hr2].
  rewrite !run_snoc. cbn [handle].
  case_bool_decide; [|case_bool_decide; [|case_bool_decide;
                                          [|case_bool_decide]]].
  - unfold reply. rewrite Hr1. repeat split.
  - unfold reply. rewrite Hr2. repeat split.
  - repeat split.
  - repeat split.
  - repeat split.
Qed.

(** * Isolation of sessions *)

Lemma storeAndAdvance_report sessions1 sessions2 sessionId state q v :
  (storeAndAdvance sessions1 sessionId state q v).1
  = (storeAndAdvance sessions2 sessionId state q v).1.
Proof.
  unfold storeAndAdvance. case_bool_decide; [reflexivity|].
  destruct (questionAt _); reflexivity.
Qed.

Lemma storeAndAdvance_entry sessions sessionId state q v :
  (storeAndAdvance sessions sessionId state q v).2 !! sessionId
  = Some (answered state q v).
Proof. rewrite storeAndAdvance_store. apply lookup_insert_eq. Qed.

(** X20. What a tool returns for a session, and the entry it leaves for that
    session, depend on the store through that session's entry alone: two
    stores that agree on the session give the same result and the same new
    entry, whatever other sessions they hold. *)
Theorem session_isolation
    (toLowerCase : jsstring -> jsstring) (now : Z)
    (sessions1 sessions2 : gmap jsstring SoulState)
    (sessionId answer : jsstring) :
  sessions1 !! sessionId = sessions2 !! sessionId ->
  (startSoulBuilder now sessions1 sessionId).1
  = (startSoulBuilder now sessions2 sessionId).1
  /\ (startSoulBuilder now sessions1 sessionId).2 !! sessionId
     = (startSoulBuilder now sessions2 sessionId).2 !! sessionId
  /\ (answerQuestion toLowerCase sessions1 sessionId answer).1
     = (answerQuestion toLowerCase sessions2 sessionId answer).1
  /\ (answerQuestion toLowerCase sessions1 sessionId answer).2 !! sessionId
     = (answerQuestion toLowerCase sessions2 sessionId answer).2 !! sessionId
  /\ generateSoul sessions1 sessionId = generateSoul sessions2 sessionId
  /\ exportSoul sessions1 sessionId = exportSoul sessions2 sessionId.
Proof.
  intros Heq. split; [|split; [|split; [|split; [|split]]]].
  - unfold startSoulBuilder. rewrite Heq.
    destruct (sessions2 !! sessionId); [reflexivity|].
    destruct (questionAt 0); reflexivity.
  - rewrite !startSoulBuilder_store, Heq.
    destruct (sessions2 !! sessionId) eqn:Hs; [congruence|].
    rewrite !lookup_insert_eq. reflexivity.
  - unfold answerQuestion. rewrite Heq.
    destruct (sessions2 !! sessionId) as [state|]; [|reflexivity].
    case_bool_decide; [reflexivity|].
    destruct (questionAt (step state - 1)) as [q|]; [|reflexivity].
    destruct (optional q && _); [apply storeAndAdvance_report|].
    destruct (bool_decide _ && _); [reflexivity|apply storeAndAdvance_report].
  - unfold answerQuestion. rewrite Heq.
    destruct (sessions2 !! sessionId) as [state|] eqn:Hs;
      [|cbn [snd]; congruence].
    case_bool_decide; [cbn [snd]; congruence|].
    destruct (questionAt (step state - 1)) as [q|]; [|cbn [snd]; congruence].
    destruct (optional q && _); [rewrite !storeAndAdvance_entry; reflexivity|].
    destruct (bool_decide _ && _); [cbn [snd]; congruence|].
    rewrite !storeAndAdvance_entry. reflexivity.
  - unfold generateSoul. rewrite Heq. reflexivity.
  - unfold exportSoul. rewrite Heq. reflexivity.
Qed.

Lemma session_isolation_witness :
  (answerQuestion toLowerCase_latin store6 (lit "s1") (lit "skip")).1
  = (answerQuestion toLowerCase_latin (<[lit "s2" := created 5]> store6)
       (lit "s1") (lit "skip")).1.
Proof.
  apply (session_isolation toLowerCase_latin 0 store6
           (<[lit "s2" := created 5]> store6) (lit "s1") (lit "skip")).
  vm_compute. reflexivity.
Defined.

(** * What the document shows *)

Lemma occursIn_here needle rest : occursIn needle (needle ++ rest).
Proof. exists [], rest. reflexivity. Qed.

Lemma occursIn_later needle front hay :
  occursIn needle hay -> occursIn needle (front ++ hay).
Proof.
  intros (p & q & ->). exists (front ++ p), q. rewrite <- app_assoc.
  reflexivity.
Qed.

Lemma occursIn_prefix needle rest hay :
  hay = needle ++ rest -> occursIn needle hay.
Proof. intros ->. apply occursIn_here. Qed.

Ltac occurs_here :=
  eapply occursIn_prefix; rewrite <- ?app_assoc; reflexivity.

(** X21. The document of a complete answer set shows every answer given: the
    name, the personality, the core values, the tone and the backstory each
    occur in it under their labels, and so does the signature under its
    heading when it is not empty. *)
Theorem generateSoulMd_shows_answers (n p c t b s : jsstring) :
  let doc :=
    generateSoulMd {| name := Some n; personality := Some p;
                      coreValues := Some c; tone := Some t;
                      backstory := Some b; signature := Some s |} in
  occursIn (lit "# SOUL.md — " ++ n ++ nl) doc
  /\ occursIn (lit "**Name:** " ++ n ++ nl) doc
  /\ occursIn (lit "**Personality:** " ++ p ++ nl) doc
  /\ occursIn (lit "**Core Values:** " ++ c ++ nl) doc
  /\ occursIn (lit "**Tone:** " ++ t ++ nl) doc
  /\ occursIn (lit "## Backstory" ++ nl ++ b ++ nl) doc
  /\ (s <> [] -> occursIn (lit "## Signature" ++ nl ++ s ++ nl) doc).
Proof.
  cbn zeta. unfold generateSoulMd.
  cbn [name personality coreValues tone backstory tpl].
  split; [occurs_here|].
  split; [do 6 apply occursIn_later; occurs_here|].
  split; [do 9 apply occursIn_later; occurs_here|].
  split; [do 12 apply occursIn_later; occurs_here|].
  split; [do 18 apply occursIn_later; occurs_here|].
  split; [do 22 apply occursIn_later; occurs_here|].
  intros Hs.
  assert (Hsig : signatureSection
            {| name := Some n; personality := Some p; coreValues := Some c;
               tone := Some t; backstory := Some b; signature := Some s |}
          = lit "## Signature" ++ nl ++ s).
  { unfold signatureSection. cbn [signature tpl].
    destruct s as [|u s]; [exfalso; apply Hs; reflexivity|reflexivity]. }
  rewrite Hsig. do 27 apply occursIn_later. occurs_here.
Qed.

(** * The handler on concrete requests *)

Example callTool_unknown :
  callTool toLowerCase_latin [] 0 store1 (lit "a" ++ dq ++ nl) (lit "s1") []
  = ({| text := lit "{" ++ dq ++ lit "success" ++ dq ++ lit ":false," ++ dq
                ++ lit "message" ++ dq ++ lit ":" ++ dq
                ++ lit "Unknown tool: a" ++ [92%N; 34%N; 92%N; 110%N] ++ dq
                ++ lit "}";
        isError := None |},
     store1).
Proof. vm_compute. reflexivity. Qed.

Example callTool_start :
  (callTool toLowerCase_latin [] 2000 store6 (lit "start_soul_builder")
     (lit "s1") []).1
  = {| text := lit "Session bereits aktiv. Wir sind bei Frage 6/6."
               ++ nl ++ nl ++ lit "**Frage 6/6:** "
               ++ lit "Ein typischer Erkennungs-Satz deines Agenten? (oder "
               ++ dq ++ lit "skip" ++ dq ++ lit " zum Überspringen)";
       isError := None |}.
Proof. vm_compute. reflexivity. Qed.

Example quoteJSONString_surrogates :
  quoteJSONString (lit "🎭" ++ [55356%N; 31%N])
  = dq ++ lit "🎭\ud83c\u001f" ++ dq.
Proof. vm_compute. reflexivity. Qed.
